(** * Session and capability-negotiation layer of the MCP server starter

    A shallow embedding of [src/session-manager.ts], [src/sse-transport.ts],
    [src/tools.ts], the request router of [src/enhanced-http-handler.ts] and
    the [POST /messages] endpoint of the entry point ([index.ts]), followed
    by the properties proved about them.

    Conventions of the embedding:
    - a JavaScript object used as a dictionary ([Map], [Record<string, _>])
      is a [gmap string _] holding its own enumerable properties; where the
      enumeration order is observable (the argument object of [prompts/get])
      an association list in enumeration order is used instead;
    - a mutable class instance is a record, and each method is a computation
      in the state monad over that record;
    - [new Date()] is an input: every method that reads the clock takes the
      reading(s) as explicit arguments, in milliseconds since the epoch;
    - an object literal and a JSON-decoded object inherit from
      [Object.prototype]: reading [o[k]] finds the members of the prototype
      when [o] has no property [k] of its own;
    - strings are sequences of ASCII characters: where a function of the
      source treats other characters differently (the case mappings), the
      properties are stated for ASCII texts;
    - numbers are integers; the arithmetic of the random number tool goes
      through the rounding of the runtime, which the host supplies;
    - of the console output the router's own lines are kept, as the record
      of which operation a request started, and the error lines of the
      streaming transport manager. *)

From Stdlib Require Import ZArith List Lia Bool QArith Qround Ascii.
From stdpp Require Import base option numbers strings list gmap fin_maps pretty.

Local Open Scope Z_scope.
Local Open Scope string_scope.

(** ** JavaScript values as far as the code inspects them *)

Module Js.

(** A JSON-decoded value, or a member of [Object.prototype].  Numbers are
    the integer-valued ones; objects, functions among them, are opaque,
    since the code only tests them for truthiness. *)
Inductive value : Type :=
| Undefined
| Null
| Bool (b : bool)
| Num (n : Z)
| Str (s : string)
| Obj.

(** [ToBoolean]: what [if (v)], [!v] and [a && b] look at. *)
Definition truthy (v : value) : bool :=
  match v with
  | Undefined | Null => false
  | Bool b => b
  | Num n => negb (n =? 0)%Z
  | Str s => negb (String.eqb s "")
  | Obj => true
  end.

(** The property [k] that the object [o] itself has, [undefined] when it
    has none: what the object states, as [Object.entries] and
    [JSON.stringify] see it. *)
Definition own (o : gmap string value) (k : string) : value :=
  default Undefined (o !! k).

(** The names of the members of [Object.prototype], which every object
    literal and every JSON-decoded object inherits. *)
Definition objectPrototype : list string :=
  [ "constructor"; "__defineGetter__"; "__defineSetter__"; "hasOwnProperty";
    "__lookupGetter__"; "__lookupSetter__"; "isPrototypeOf";
    "propertyIsEnumerable"; "toString"; "valueOf"; "__proto__";
    "toLocaleString" ].

Definition inherited (k : string) : bool :=
  bool_decide (k ∈ objectPrototype).

(** [o[k]] read on such an object: its own property when it has one, else
    the member of [Object.prototype] of that name (a function, and under
    [__proto__] the prototype itself: an object either way), else
    [undefined]. *)
Definition get (o : gmap string value) (k : string) : value :=
  match o !! k with
  | Some v => v
  | None => if inherited k then Obj else Undefined
  end.

(** [o[k] = v] on such an object: an own property, except under the name
    [__proto__], where the assignment goes to the setter that
    [Object.prototype] has for it and creates no property. *)
Definition set {V : Type} (o : gmap string V) (k : string) (v : V) : gmap string V :=
  if String.eqb k "__proto__" then o else <[k := v]> o.

(** [!s] for an optional string: [undefined] and [''] are falsy. *)
Definition falsyString (s : option string) : bool :=
  match s with
  | None => true
  | Some s => String.eqb s ""
  end.

(** [v === 'literal'], the test of a [case 'literal':] and of [===]. *)
Definition strictEq (v : option string) (literal : string) : bool :=
  match v with
  | Some s => String.eqb s literal
  | None => false
  end.

(** [`${s}`] for an optional string. *)
Definition showString (s : option string) : string :=
  default "undefined" s.

(** [s.slice(n)] *)
Fixpoint slice (n : nat) (s : string) : string :=
  match n, s with
  | O, _ => s
  | S n', EmptyString => ""
  | S n', String _ s' => slice n' s'
  end.

(** The first occurrence of [pat] in [s]: the text before it and after it. *)
Fixpoint find (pat s : string) : option (string * string) :=
  if String.prefix pat s
  then Some ("", slice (String.length pat) s)
  else match s with
       | EmptyString => None
       | String c s' =>
           match find pat s' with
           | Some (before, after) => Some (String c before, after)
           | None => None
           end
       end.

(** [GetSubstitution] for a string pattern: there are no captures, so only
    [$$], [$&], [$`] and [$'] are special in the replacement text. *)
Fixpoint getSubstitution (matched before after replacement : string) : string :=
  match replacement with
  | EmptyString => ""
  | String c r =>
      if Ascii.eqb c "$"%char then
        match r with
        | String d r' =>
            if Ascii.eqb d "$"%char then "$" ++ getSubstitution matched before after r'
            else if Ascii.eqb d "&"%char then matched ++ getSubstitution matched before after r'
            else if Ascii.eqb d "`"%char then before ++ getSubstitution matched before after r'
            else if Ascii.eqb d "'"%char then after ++ getSubstitution matched before after r'
            else String c (getSubstitution matched before after r)
        | EmptyString => String c ""
        end
      else String c (getSubstitution matched before after r)
  end.

(** [s.replace(pat, replacement)] with a string pattern: the first
    occurrence only. *)
Definition replace (s pat replacement : string) : string :=
  match find pat s with
  | None => s
  | Some (before, after) =>
      before ++ getSubstitution pat before after replacement ++ after
  end.

(** [/\s/] on ASCII. *)
Definition isWhitespace (c : Ascii.ascii) : bool :=
  let n := Ascii.nat_of_ascii c in
  ((9 <=? n) && (n <=? 13))%nat || (n =? 32)%nat.

Fixpoint removeWhitespace (s : string) : string :=
  match s with
  | EmptyString => ""
  | String c r =>
      if isWhitespace c then removeWhitespace r else String c (removeWhitespace r)
  end.

Fixpoint trimStart (s : string) : string :=
  match s with
  | EmptyString => ""
  | String c r => if isWhitespace c then trimStart r else s
  end.

Definition trim (s : string) : string :=
  String.rev (trimStart (String.rev (trimStart s))).

(** [s.split(/\s+/)]; [piece] is the piece being read and [inSeparator]
    says that the previous character was whitespace. *)
Fixpoint splitWhitespace (s piece : string) (inSeparator : bool) : list string :=
  match s with
  | EmptyString => [piece]
  | String c r =>
      if isWhitespace c
      then if inSeparator
           then splitWhitespace r piece true
           else piece :: splitWhitespace r "" true
      else splitWhitespace r (piece ++ String c "") false
  end.

Definition toUpperChar (c : Ascii.ascii) : Ascii.ascii :=
  let n := Ascii.nat_of_ascii c in
  if ((97 <=? n) && (n <=? 122))%nat then Ascii.ascii_of_nat (n - 32) else c.

Definition toLowerChar (c : Ascii.ascii) : Ascii.ascii :=
  let n := Ascii.nat_of_ascii c in
  if ((65 <=? n) && (n <=? 90))%nat then Ascii.ascii_of_nat (n + 32) else c.

Fixpoint mapString (f : Ascii.ascii -> Ascii.ascii) (s : string) : string :=
  match s with
  | EmptyString => ""
  | String c r => String (f c) (mapString f r)
  end.

(** [s.toUpperCase()] and [s.toLowerCase()] of an ASCII text, where only
    the letters change.  Outside ASCII the mappings of the language are
    others (['ß'] becomes ['SS']), so what is proved through these holds for
    ASCII texts. *)
Definition toUpperCase : string -> string := mapString toUpperChar.
Definition toLowerCase : string -> string := mapString toLowerChar.


(** [parts.join(sep)] *)
Fixpoint join (sep : string) (parts : list string) : string :=
  match parts with
  | [] => ""
  | [x] => x
  | x :: rest => x ++ sep ++ join sep rest
  end.

(** What the runtime supplies to one request: the successive readings of
    [new Date()], the draw of [Math.random()], the rounding of the exact
    result of an arithmetic operation to a number of the language, the date
    and number formatters, the text that a template literal prints for the
    [TypeError] of calling a property that is no function (given the source
    text of the callee), and the evaluation of the function body that the
    calculator generates from a cleaned expression (its result as a template
    literal prints it, or the error it raised, printed). *)
Record Host : Type := {
  now : nat -> Z;
  Math_random : Q;
  round : Q -> Q;
  toISOString : Z -> string;
  toLocaleString : Z -> string;
  Number_toString : Q -> string;
  notAFunction : string -> string;
  evaluate : string -> string + string
}.

End Js.

(** ** A small state monad for the class instances *)

Definition State (S A : Type) : Type := S -> A * S.

Definition ret {S A} (a : A) : State S A := fun s => (a, s).

Definition bind {S A B} (m : State S A) (f : A -> State S B) : State S B :=
  fun s => let '(a, s') := m s in f a s'.

Definition get {S} : State S S := fun s => (s, s).

Definition put {S} (s : S) : State S unit := fun _ => (tt, s).

Definition modify {S} (f : S -> S) : State S unit := fun s => (tt, f s).

Definition evalState {S A} (m : State S A) (s : S) : A := fst (m s).

Definition execState {S A} (m : State S A) (s : S) : S := snd (m s).

Declare Scope state_scope.
Delimit Scope state_scope with state.
Notation "x <- c1 ;; c2" := (bind c1 (fun x => c2))
  (at level 100, c1 at next level, right associativity) : state_scope.
Notation "c1 ;; c2" := (bind c1 (fun _ => c2))
  (at level 100, right associativity) : state_scope.

(** [for (const x of xs) body(x)] *)
Fixpoint for_of {S A} (xs : list A) (body : A -> State S unit) : State S unit :=
  match xs with
  | [] => ret tt
  | x :: xs' => (body x ;; for_of xs' body)%state
  end.

(** ** session-manager.ts *)

(** [ServerCapabilities] / [ClientCapabilities] of the protocol SDK, reduced
    to the properties the session manager reads.  A missing property is
    [Js.Undefined]; [experimental] is a dictionary when present. *)
Module Capabilities.
Record t : Type := mk {
  tools : Js.value;
  resources : Js.value;
  prompts : Js.value;
  logging : Js.value;
  sampling : Js.value;
  experimental : option (gmap string Js.value)
}.

(** The object literal [{}]. *)
Definition empty : t :=
  mk Js.Undefined Js.Undefined Js.Undefined Js.Undefined Js.Undefined None.
End Capabilities.

Module NegotiatedCapabilities.
Record t : Type := mk {
  tools : bool;
  resources : bool;
  prompts : bool;
  logging : bool;
  sampling : bool;
  experimental : option (gmap string bool)
}.
End NegotiatedCapabilities.

(** [keyof NegotiatedCapabilities] *)
Inductive CapabilityKey : Type :=
| Tools | Resources | Prompts | Logging | Sampling | Experimental.

Record ClientInfo : Type := { ci_name : string; ci_version : string }.

(** [clientInfo] and [protocolVersion] are informational; they are [None]
    ([undefined]) when the [initialize] request that the router passes
    through omitted them. *)
Module ManagedSession.
Record t : Type := mk {
  id : string;
  clientInfo : option ClientInfo;
  protocolVersion : option string;
  clientCapabilities : Capabilities.t;
  negotiatedCapabilities : NegotiatedCapabilities.t;
  metadata : gmap string Js.value;
  createdAt : Z;
  lastActivity : Z
}.

Definition set_lastActivity (now : Z) (s : t) : t :=
  mk (id s) (clientInfo s) (protocolVersion s) (clientCapabilities s)
     (negotiatedCapabilities s) (metadata s) (createdAt s) now.

Definition set_metadata (md : gmap string Js.value) (s : t) : t :=
  mk (id s) (clientInfo s) (protocolVersion s) (clientCapabilities s)
     (negotiatedCapabilities s) md (createdAt s) (lastActivity s).
End ManagedSession.

Module SessionManager.

Record t : Type := mk {
  sessions : gmap string ManagedSession.t;
  serverCapabilities : Capabilities.t
}.

Definition set_sessions (m : gmap string ManagedSession.t) (this : t) : t :=
  mk m (serverCapabilities this).

(** The constructor's default: what the server can provide. *)
Definition defaultServerCapabilities : Capabilities.t :=
  Capabilities.mk Js.Obj Js.Obj Js.Obj Js.Obj Js.Undefined None.

Definition new (serverCapabilities : option Capabilities.t) : t :=
  mk ∅ (default defaultServerCapabilities serverCapabilities).

(** One turn of the loop over [Object.entries(clientCapabilities.experimental)]:
    [if (clientSupport && this.serverCapabilities.experimental[feature])
    negotiated.experimental[feature] = true]. *)
Definition negotiateFeature (serverExperimental : gmap string Js.value)
    (negotiated : gmap string bool) (entry : string * Js.value) : gmap string bool :=
  let '(feature, clientSupport) := entry in
  if Js.truthy clientSupport && Js.truthy (Js.get serverExperimental feature)
  then Js.set negotiated feature true
  else negotiated.

Definition negotiateCapabilities (serverCapabilities clientCapabilities : Capabilities.t)
    : NegotiatedCapabilities.t :=
  NegotiatedCapabilities.mk
    (Js.truthy (Capabilities.tools serverCapabilities)
       && Js.truthy (Capabilities.tools clientCapabilities))
    (Js.truthy (Capabilities.resources serverCapabilities)
       && Js.truthy (Capabilities.resources clientCapabilities))
    (Js.truthy (Capabilities.prompts serverCapabilities)
       && Js.truthy (Capabilities.prompts clientCapabilities))
    (Js.truthy (Capabilities.logging serverCapabilities)
       && Js.truthy (Capabilities.logging clientCapabilities))
    (Js.truthy (Capabilities.sampling clientCapabilities))
    (match Capabilities.experimental clientCapabilities,
           Capabilities.experimental serverCapabilities with
     | Some clientExperimental, Some serverExperimental =>
         Some (foldl (negotiateFeature serverExperimental) ∅
                 (map_to_list clientExperimental))
     | _, _ => None
     end).

Definition createSession (sessionId : string) (clientInfo : option ClientInfo)
    (protocolVersion : option string) (clientCapabilities : Capabilities.t)
    (createdAt lastActivity : Z) : State t ManagedSession.t :=
  (this <- get ;;
   let negotiatedCapabilities :=
     negotiateCapabilities (serverCapabilities this) clientCapabilities in
   let session :=
     ManagedSession.mk sessionId clientInfo protocolVersion clientCapabilities
       negotiatedCapabilities ∅ createdAt lastActivity in
   modify (set_sessions (<[sessionId := session]> (sessions this))) ;;
   ret session)%state.

Definition getSession (sessionId : string) (now : Z)
    : State t (option ManagedSession.t) :=
  (this <- get ;;
   match sessions this !! sessionId with
   | Some session =>
       let session' := ManagedSession.set_lastActivity now session in
       modify (set_sessions (<[sessionId := session']> (sessions this))) ;;
       ret (Some session')
   | None => ret None
   end)%state.

(** [!!negotiatedCapabilities[capability]] *)
Definition negotiatedFlag (n : NegotiatedCapabilities.t) (capability : CapabilityKey) : bool :=
  match capability with
  | Tools => NegotiatedCapabilities.tools n
  | Resources => NegotiatedCapabilities.resources n
  | Prompts => NegotiatedCapabilities.prompts n
  | Logging => NegotiatedCapabilities.logging n
  | Sampling => NegotiatedCapabilities.sampling n
  | Experimental => bool_decide (is_Some (NegotiatedCapabilities.experimental n))
  end.

Definition hasCapability (sessionId : string) (capability : CapabilityKey)
    : State t bool :=
  (this <- get ;;
   match sessions this !! sessionId with
   | None => ret false
   | Some session =>
       ret (negotiatedFlag (ManagedSession.negotiatedCapabilities session) capability)
   end)%state.

(** [{ ...session.metadata, ...metadata }]: the keys of the argument win. *)
Definition updateSessionMetadata (sessionId : string) (metadata : gmap string Js.value)
    (now : Z) : State t unit :=
  (this <- get ;;
   match sessions this !! sessionId with
   | Some session =>
       let session' :=
         ManagedSession.set_lastActivity now
           (ManagedSession.set_metadata (metadata ∪ ManagedSession.metadata session) session) in
       modify (set_sessions (<[sessionId := session']> (sessions this)))
   | None => ret tt
   end)%state.

Definition removeSession (sessionId : string) : State t unit :=
  modify (fun this => set_sessions (delete sessionId (sessions this)) this).

(** [Array.from(this.sessions.values())], up to the order: the store does
    not keep the insertion order of the [Map], so the list holds the stored
    sessions, each once, in the order of the store. *)
Definition getActiveSessions : State t (list ManagedSession.t) :=
  (this <- get ;; ret (map_to_list (sessions this)).*2)%state.

Definition defaultMaxInactivityMs : Z := 5 * 60 * 1000.

(** The loop deletes only the entry it is visiting, so iterating the live
    [Map] visits exactly the entries present when the loop starts. *)
Definition cleanupStaleSessions (maxInactivityMs : option Z) (now : Z) : State t unit :=
  (this <- get ;;
   let maxInactivityMs := default defaultMaxInactivityMs maxInactivityMs in
   for_of (map_to_list (sessions this)) (fun '(sessionId, session) =>
     let inactivityTime := now - ManagedSession.lastActivity session in
     if inactivityTime >? maxInactivityMs
     then removeSession sessionId
     else ret tt))%state.

Definition getServerCapabilities : State t Capabilities.t :=
  (this <- get ;; ret (serverCapabilities this))%state.

(** One turn of the loop over the negotiated experimental features:
    [if (enabled && this.serverCapabilities.experimental?.[feature])
    capabilities.experimental[feature] =
    this.serverCapabilities.experimental[feature]]. *)
Definition sessionFeature (serverExperimental : option (gmap string Js.value))
    (acc : gmap string Js.value) (entry : string * bool) : gmap string Js.value :=
  let '(feature, enabled) := entry in
  let serverValue :=
    match serverExperimental with
    | Some e => Js.get e feature
    | None => Js.Undefined
    end in
  if enabled && Js.truthy serverValue
  then Js.set acc feature serverValue
  else acc.

Definition getSessionCapabilities (sessionId : string) : State t Capabilities.t :=
  (this <- get ;;
   match sessions this !! sessionId with
   | None => ret Capabilities.empty
   | Some session =>
       let n := ManagedSession.negotiatedCapabilities session in
       let server := serverCapabilities this in
       ret (Capabilities.mk
              (if NegotiatedCapabilities.tools n
               then Capabilities.tools server else Js.Undefined)
              (if NegotiatedCapabilities.resources n
               then Capabilities.resources server else Js.Undefined)
              (if NegotiatedCapabilities.prompts n
               then Capabilities.prompts server else Js.Undefined)
              (if NegotiatedCapabilities.logging n
               then Capabilities.logging server else Js.Undefined)
              Js.Undefined
              (match NegotiatedCapabilities.experimental n with
               | Some features =>
                   Some (foldl (sessionFeature (Capabilities.experimental server)) ∅
                           (map_to_list features))
               | None => None
               end))
   end)%state.

Definition clearAllSessions : State t unit :=
  modify (set_sessions ∅).

End SessionManager.

(** ** tools.ts *)

Module ToolResult.
(** [metadata] is left out: no request handler reads it. *)
Record t : Type := mk {
  success : bool;
  content : option string;
  error : option string
}.
End ToolResult.

Module Tools.

Definition succeeded (content : string) : ToolResult.t :=
  ToolResult.mk true (Some content) None.

Definition failed (error : string) : ToolResult.t :=
  ToolResult.mk false None (Some error).

Definition echoTool (message : option string) : ToolResult.t :=
  if Js.falsyString message
  then failed "Message is required"
  else succeeded ("Echo: " ++ Js.showString message).

Definition isSafeChar (c : ascii) : bool :=
  let n := nat_of_ascii c in
  ((48 <=? n) && (n <=? 57))%nat
  || Ascii.eqb c "+" || Ascii.eqb c "-" || Ascii.eqb c "*" || Ascii.eqb c "/"
  || Ascii.eqb c "(" || Ascii.eqb c ")" || Ascii.eqb c "." || Js.isWhitespace c.

Fixpoint allChars (p : ascii -> bool) (s : string) : bool :=
  match s with
  | EmptyString => true
  | String c r => p c && allChars p r
  end.

(** [/^[0-9+\-*/().\s]+$/.test(s)] *)
Definition safePattern (s : string) : bool :=
  negb (String.eqb s "") && allChars isSafeChar s.

Definition calculatorTool (h : Js.Host) (expression : option string) : ToolResult.t :=
  if Js.falsyString expression
  then failed "Expression is required"
  else
    let expression := Js.showString expression in
    let cleanExpression := Js.removeWhitespace expression in
    if negb (safePattern cleanExpression)
    then failed "Expression contains invalid characters"
    else match Js.evaluate h cleanExpression with
         | inl result => succeeded (expression ++ " = " ++ result)
         | inr evalError => failed ("Invalid expression: " ++ evalError)
         end.

(** The router passes [args.format] on unchecked, so [format] is any JSON
    value.  [format?.toLowerCase()] is [undefined] for a missing format and
    for [null], and the lower-case form of a string; any other value has no
    such method, the call raises a [TypeError], and the [catch] of the tool
    turns it into a failure. *)
Definition timestampTool (h : Js.Host) (format : Js.value) : ToolResult.t :=
  let now := Js.now h 0 in
  match format with
  | Js.Bool _ | Js.Num _ | Js.Obj =>
      failed ("Timestamp tool error: " ++ Js.notAFunction h "format?.toLowerCase")
  | _ =>
      let selector :=
        match format with
        | Js.Str format => Some (Js.toLowerCase format)
        | _ => None
        end in
      let formattedTime :=
        if Js.strictEq selector "unix" then pretty (now `div` 1000)
        else if Js.strictEq selector "locale" then Js.toLocaleString h now
        else Js.toISOString h now in
      succeeded formattedTime
  end.

(** [min] and [max] are integer bounds that are numbers of the language
    (up to [2^53] in magnitude every integer is).  The arithmetic is that of
    the language: each operation gives its exact result as the runtime
    rounds it; [Math.floor] is exact. *)
Definition randomNumberTool (h : Js.Host) (min max : option Z) (isInteger : option bool)
    : ToolResult.t :=
  let min := default 0 min in
  let max := default 100 max in
  let isInteger := default true isInteger in
  if min >? max
  then failed "Minimum value cannot be greater than maximum value"
  else
    let range := Js.round h (inject_Z max - inject_Z min)%Q in
    let randomNum := Js.round h (Js.round h (Js.Math_random h * range) + inject_Z min)%Q in
    let randomNum := if isInteger then inject_Z (Qfloor randomNum) else randomNum in
    succeeded (Js.Number_toString h randomNum).

Definition stringTool (text operation : option string) : ToolResult.t :=
  if Js.falsyString text
  then failed "Text is required"
  else
    let text := Js.showString text in
    if Js.strictEq operation "uppercase" then succeeded (Js.toUpperCase text)
    else if Js.strictEq operation "lowercase" then succeeded (Js.toLowerCase text)
    else if Js.strictEq operation "reverse" then succeeded (String.rev text)
    else if Js.strictEq operation "length" then succeeded (pretty (String.length text))
    else if Js.strictEq operation "words" then
      let words :=
        filter (fun word => (0 <? String.length word)%nat = true)
               (Js.splitWhitespace (Js.trim text) "" false) in
      succeeded ("Word count: " ++ pretty (length words))
    else failed ("Unknown operation: " ++ Js.showString operation).

(** A tool definition without its [inputSchema] literal. *)
Record ToolDefinition : Type := {
  td_name : string;
  td_description : string
}.

Definition getToolDefinitions : list ToolDefinition :=
  [ {| td_name := "echo"; td_description := "Echo back the provided message" |};
    {| td_name := "calculate"; td_description := "Perform mathematical calculations" |};
    {| td_name := "get_timestamp"; td_description := "Get the current timestamp" |};
    {| td_name := "random_number"; td_description := "Generate a random number" |};
    {| td_name := "string_manipulation"; td_description := "Perform string operations" |} ].

End Tools.

(** ** enhanced-http-handler.ts *)

(** The [arguments] object of a [tools/call] request, as the tool signatures
    type its properties; [None] is a missing property.  [format] is kept as
    the JSON value it is, since the timestamp tool handles a value that is
    no string. *)
Module ToolArguments.
Record t : Type := mk {
  message : option string;
  expression : option string;
  format : Js.value;
  min : option Z;
  max : option Z;
  isInteger : option bool;
  text : option string;
  operation : option string
}.

(** The default [{}] of [arguments: args = {}]. *)
Definition empty : t := mk None None Js.Undefined None None None None None.
End ToolArguments.

(** [request.params], typed by the properties the router reads.  The
    [arguments] property is read as a tool argument object by [tools/call]
    and as a list of entries, in enumeration order, by [prompts/get]. *)
Module Params.
Record t : Type := mk {
  protocolVersion : option string;
  capabilities : option Capabilities.t;
  clientInfo : option ClientInfo;
  name : option string;
  arguments : option ToolArguments.t;
  promptArguments : option (list (string * string));
  uri : option string
}.
End Params.

Module JsonRpcRequest.
Record t : Type := mk {
  jsonrpc : option string;
  id : Js.value;
  method : option string;
  params : option Params.t
}.
End JsonRpcRequest.

Module ErrorCodes.
Definition PARSE_ERROR : Z := -32700.
Definition INVALID_REQUEST : Z := -32600.
Definition METHOD_NOT_FOUND : Z := -32601.
Definition INVALID_PARAMS : Z := -32602.
Definition INTERNAL_ERROR : Z := -32603.
End ErrorCodes.

Record TextContent : Type := { tc_type : string; tc_text : string }.

Record ResourceInfo : Type := {
  ri_uri : string; ri_name : string; ri_description : string; ri_mimeType : string
}.

Record ResourceContents : Type := {
  rc_uri : string; rc_mimeType : string; rc_text : string
}.

Record PromptArgument : Type := {
  pa_name : string; pa_description : string; pa_required : bool
}.

Record PromptInfo : Type := {
  pi_name : string; pi_description : string; pi_arguments : list PromptArgument
}.

(** The content of a prompt message: [pc_text] is [None] when the text is
    [undefined]. *)
Record PromptContent : Type := { pc_type : string; pc_text : option string }.

Record PromptMessage : Type := { pm_role : string; pm_content : PromptContent }.

(** The value a request resolves to. *)
Inductive Result : Type :=
| PingResult
| InitializeResult (protocolVersion : string) (capabilities : Capabilities.t)
    (serverInfo : ClientInfo)
| ListToolsResult (tools : list Tools.ToolDefinition)
| CallToolResult (content : list TextContent) (isError : bool)
| ListResourcesResult (resources : list ResourceInfo)
| ListResourceTemplatesResult (resourceTemplates : list ResourceInfo)
| ReadResourceResult (contents : list ResourceContents)
| ListPromptsResult (prompts : list PromptInfo)
| GetPromptResult (messages : list PromptMessage).

(** What a request handler throws: a literal [{ code, message }], or a
    runtime [TypeError], which carries a message and no code. *)
Inductive Thrown : Type :=
| RpcError (code : Z) (message : string)
| TypeError (message : string).

Inductive Completion (A : Type) : Type :=
| Return (a : A)
| Throw (e : Thrown).
Arguments Return {A} a.
Arguments Throw {A} e.

(** The router's console lines. *)
Inductive ConsoleLine : Type :=
| LogReceived (method : string)
| LogPing
| LogInitialized (negotiated : NegotiatedCapabilities.t)
| LogListingTools
| LogCallingTool (name : option string)
| LogToolError (error : string)
| LogListingResources
| LogListingResourceTemplates
| LogReadingResource (uri : option string)
| LogListingPrompts
| LogGettingPrompt (name : option string)
| LogParseFailure.

Module JsonRpcResponse.
Record error_t : Type := mk_error { code : Z; message : string }.
Record t : Type := mk {
  id : Js.value;
  result : option Result;
  error : option error_t
}.
End JsonRpcResponse.

(** What was written to the Express response: [res.status(s).json(body)]. *)
Record HttpResponse : Type := {
  status : Z;
  body : JsonRpcResponse.t
}.

Module EnhancedHttpHandler.

(** The handler owns an [EnhancedMCPServer], of which the router uses the
    session manager only. *)
Record t : Type := mk {
  sessionManager : SessionManager.t;
  console : list ConsoleLine
}.

Definition sessionId : string := "http-default".

(** The constructor: [EnhancedMCPServer] advertises tools, resources,
    prompts and logging. *)
Definition new : t :=
  mk (SessionManager.new
        (Some (Capabilities.mk Js.Obj Js.Obj Js.Obj Js.Obj Js.Undefined None)))
     [].

(** [this.server.getSessionManager().m(...)] *)
Definition onSessionManager {A} (m : State SessionManager.t A) : State t A :=
  fun this =>
    let '(a, sm) := m (sessionManager this) in
    (a, mk sm (console this)).

Definition log (line : ConsoleLine) : State t unit :=
  modify (fun this => mk (sessionManager this) (console this ++ [line])).

(** [if (!sessionManager.hasCapability(this.sessionId, c)) throw { code:
    METHOD_NOT_FOUND, message }], followed by the rest of the case. *)
Definition gate (capability : CapabilityKey) (message : string)
    (rest : State t (Completion Result)) : State t (Completion Result) :=
  (negotiated <- onSessionManager (SessionManager.hasCapability sessionId capability) ;;
   if negb negotiated
   then ret (Throw (RpcError ErrorCodes.METHOD_NOT_FOUND message))
   else rest)%state.

(** The [switch (name)] of [tools/call], case by case: [None] is the
    [default] branch, which throws [Error(`Unknown tool: ${name}`)]. *)
Definition callTool (h : Js.Host) (name : option string) (args : ToolArguments.t)
    : option ToolResult.t :=
  if Js.strictEq name "echo" then
    Some (Tools.echoTool (ToolArguments.message args))
  else if Js.strictEq name "calculate" then
    Some (Tools.calculatorTool h (ToolArguments.expression args))
  else if Js.strictEq name "get_timestamp" then
    Some (Tools.timestampTool h (ToolArguments.format args))
  else if Js.strictEq name "random_number" then
    Some (Tools.randomNumberTool h (ToolArguments.min args) (ToolArguments.max args)
            (ToolArguments.isInteger args))
  else if Js.strictEq name "string_manipulation" then
    Some (Tools.stringTool (ToolArguments.text args) (ToolArguments.operation args))
  else None.

Definition textContent (text : string) : TextContent :=
  {| tc_type := "text"; tc_text := text |}.

(** The literal of [resources/list]. *)
Definition resourceList : list ResourceInfo :=
  [ {| ri_uri := "config://sample"; ri_name := "Sample Configuration";
       ri_description := "A sample configuration resource";
       ri_mimeType := "application/json" |};
    {| ri_uri := "text://welcome"; ri_name := "Welcome Message";
       ri_description := "A welcome message for users";
       ri_mimeType := "text/plain" |} ].

(** The literal of [resources/templates/list]; [ri_uri] holds the
    [uriTemplate] property. *)
Definition resourceTemplates : list ResourceInfo :=
  [ {| ri_uri := "user://profile/{userId}"; ri_name := "User Profile";
       ri_description := "Fetches user profile information by user ID";
       ri_mimeType := "application/json" |};
    {| ri_uri := "file:///{path}"; ri_name := "File Reader";
       ri_description := "Reads file contents from the specified path";
       ri_mimeType := "text/plain" |};
    {| ri_uri := "api:///{endpoint}/{id}"; ri_name := "API Resource";
       ri_description := "Fetches data from API endpoints with optional ID parameter";
       ri_mimeType := "application/json" |};
    {| ri_uri := "db:///{table}/{query}"; ri_name := "Database Query";
       ri_description := "Executes database queries on specified tables";
       ri_mimeType := "application/json" |};
    {| ri_uri := "log:///{service}/{date}"; ri_name := "Service Logs";
       ri_description := "Retrieves logs for a specific service and date";
       ri_mimeType := "text/plain" |} ].

Definition newline : string := "
".

(** A JSON string literal of a text that needs no escaping. *)
Definition quoted (s : string) : string :=
  let q := String (ascii_of_nat 34) "" in q ++ s ++ q.

(** [JSON.stringify({ name, version, features, protocolVersion, timestamp },
    null, 2)] of the sample configuration. *)
Definition sampleConfigText (timestamp : string) : string :=
  Js.join newline
    [ "{";
      "  " ++ quoted "name" ++ ": " ++ quoted "Enhanced MCP Server" ++ ",";
      "  " ++ quoted "version" ++ ": " ++ quoted "1.0.0" ++ ",";
      "  " ++ quoted "features" ++ ": [";
      "    " ++ quoted "tools" ++ ",";
      "    " ++ quoted "resources" ++ ",";
      "    " ++ quoted "prompts" ++ ",";
      "    " ++ quoted "sse" ++ ",";
      "    " ++ quoted "capability-negotiation";
      "  ],";
      "  " ++ quoted "protocolVersion" ++ ": " ++ quoted "2025-06-18" ++ ",";
      "  " ++ quoted "timestamp" ++ ": " ++ quoted timestamp;
      "}" ].

Definition welcomeText : string :=
  "Welcome to the Enhanced MCP Server!

This server features:
- Full SSE transport with bidirectional communication
- Dynamic capability negotiation
- Session management
- Complete 2025 MCP specification compliance

Available tools: " ++ Js.join ", " (map Tools.td_name Tools.getToolDefinitions).

Definition promptList : list PromptInfo :=
  [ {| pi_name := "calculate";
       pi_description := "Template for mathematical calculations";
       pi_arguments :=
         [ {| pa_name := "expression";
              pa_description := "The mathematical expression to calculate";
              pa_required := true |} ] |};
    {| pi_name := "query";
       pi_description := "General query template";
       pi_arguments :=
         [ {| pa_name := "question";
              pa_description := "The question to answer";
              pa_required := true |};
           {| pa_name := "context";
              pa_description := "Additional context for the question";
              pa_required := false |} ] |} ].

(** [prompts[request.params.name]] on the [prompts] table of
    [prompts/get], an object literal, and the [template] of what is found:
    [Some (Some template)] for the two entries of the table, [Some None] for
    a member that the table inherits from [Object.prototype], which is
    truthy and has no [template], and [None] when the lookup gives
    [undefined]. *)
Definition promptTemplate (name : option string) : option (option string) :=
  if Js.strictEq name "calculate" then Some (Some "Please calculate: {{expression}}")
  else if Js.strictEq name "query" then Some (Some "Question: {{question}}

Context: {{context}}

Please provide a detailed answer.")
  else if Js.inherited (Js.showString name) then Some None
  else None.

Definition promptContent (text : option string) : PromptContent :=
  {| pc_type := "text"; pc_text := text |}.

(** One turn of the loop over [Object.entries(request.params.arguments)]. *)
Definition substitute (processedTemplate : string) (entry : string * string) : string :=
  let '(key, value) := entry in
  Js.replace processedTemplate ("{{" ++ key ++ "}}") value.

Definition processTemplate (template : string)
    (arguments : option (list (string * string))) : string :=
  match arguments with
  | Some entries => foldl substitute template entries
  | None => template
  end.

(** The text item of a tool result: [result.success ? result.content! :
    result.error!]. *)
Definition resultText (result : ToolResult.t) : string :=
  default "" (if ToolResult.success result
              then ToolResult.content result
              else ToolResult.error result).

Definition routeRequest (h : Js.Host) (request : JsonRpcRequest.t)
    : State t (Completion Result) :=
  let method := JsonRpcRequest.method request in
  (if Js.strictEq method "ping" then
     log LogPing ;;
     ret (Return PingResult)
   else if Js.strictEq method "initialize" then
     match JsonRpcRequest.params request with
     | None =>
         ret (Throw (TypeError
           "Cannot destructure property 'protocolVersion' of 'request.params' as it is undefined."))
     | Some params =>
         newSession <- onSessionManager
           (SessionManager.createSession sessionId
              (Params.clientInfo params) (Params.protocolVersion params)
              (default Capabilities.empty (Params.capabilities params))
              (Js.now h 0) (Js.now h 1)) ;;
         negotiatedCapabilities <- onSessionManager
           (SessionManager.getSessionCapabilities sessionId) ;;
         log (LogInitialized (ManagedSession.negotiatedCapabilities newSession)) ;;
         ret (Return (InitializeResult "2025-06-18" negotiatedCapabilities
                        {| ci_name := "Enhanced MCP Server"; ci_version := "1.0.0" |}))
     end
   else if Js.strictEq method "tools/list" then
     gate Tools "Tools capability not negotiated for this session"
       (log LogListingTools ;;
        ret (Return (ListToolsResult Tools.getToolDefinitions)))
   else if Js.strictEq method "tools/call" then
     gate Tools "Tools capability not negotiated for this session"
       match JsonRpcRequest.params request with
       | None =>
           ret (Throw (TypeError "Cannot read properties of undefined (reading 'name')"))
       | Some params =>
           let name := Params.name params in
           let args := default ToolArguments.empty (Params.arguments params) in
           log (LogCallingTool name) ;;
           match callTool h name args with
           | Some result =>
               ret (Return (CallToolResult [textContent (resultText result)] false))
           | None =>
               let error := "Error: Unknown tool: " ++ Js.showString name in
               log (LogToolError error) ;;
               ret (Return (CallToolResult
                 [textContent ("Error executing tool " ++ Js.showString name
                                 ++ ": " ++ error)]
                 true))
           end
       end
   else if Js.strictEq method "resources/list" then
     gate Resources "Resources capability not negotiated for this session"
       (log LogListingResources ;;
        ret (Return (ListResourcesResult resourceList)))
   else if Js.strictEq method "resources/templates/list" then
     gate Resources "Resources capability not negotiated for this session"
       (log LogListingResourceTemplates ;;
        ret (Return (ListResourceTemplatesResult resourceTemplates)))
   else if Js.strictEq method "resources/read" then
     gate Resources "Resources capability not negotiated for this session"
       match JsonRpcRequest.params request with
       | None =>
           ret (Throw (TypeError "Cannot read properties of undefined (reading 'uri')"))
       | Some params =>
           let uri := Params.uri params in
           log (LogReadingResource uri) ;;
           if Js.strictEq uri "config://sample" then
             ret (Return (ReadResourceResult
               [ {| rc_uri := "config://sample"; rc_mimeType := "application/json";
                    rc_text := sampleConfigText (Js.toISOString h (Js.now h 0)) |} ]))
           else if Js.strictEq uri "text://welcome" then
             ret (Return (ReadResourceResult
               [ {| rc_uri := "text://welcome"; rc_mimeType := "text/plain";
                    rc_text := welcomeText |} ]))
           else
             ret (Throw (RpcError ErrorCodes.INVALID_PARAMS
                    ("Resource not found: " ++ Js.showString uri)))
       end
   else if Js.strictEq method "prompts/list" then
     gate Prompts "Prompts capability not negotiated for this session"
       (log LogListingPrompts ;;
        ret (Return (ListPromptsResult promptList)))
   else if Js.strictEq method "prompts/get" then
     gate Prompts "Prompts capability not negotiated for this session"
       match JsonRpcRequest.params request with
       | None =>
           ret (Throw (TypeError "Cannot read properties of undefined (reading 'name')"))
       | Some params =>
           let name := Params.name params in
           log (LogGettingPrompt name) ;;
           match promptTemplate name with
           | None =>
               ret (Throw (RpcError ErrorCodes.INVALID_PARAMS
                      ("Prompt not found: " ++ Js.showString name)))
           | Some (Some template) =>
               let processedTemplate :=
                 processTemplate template (Params.promptArguments params) in
               ret (Return (GetPromptResult
                 [ {| pm_role := "user";
                      pm_content := promptContent (Some processedTemplate) |} ]))
           | Some None =>
               (* [processedTemplate] is [undefined]: the first turn of the
                  loop, when there is one, fails on [processedTemplate.replace] *)
               match Params.promptArguments params with
               | Some (_ :: _) =>
                   ret (Throw (TypeError
                     "Cannot read properties of undefined (reading 'replace')"))
               | _ =>
                   ret (Return (GetPromptResult
                     [ {| pm_role := "user"; pm_content := promptContent None |} ]))
               end
           end
       end
   else
     ret (Throw (RpcError ErrorCodes.METHOD_NOT_FOUND
            ("Method not found: " ++ Js.showString method))))%state.

Definition sendResult (id : Js.value) (result : Result) : HttpResponse :=
  {| status := 200;
     body := JsonRpcResponse.mk id (Some result) None |}.

Definition sendError (id : Js.value) (code : Z) (message : string) : HttpResponse :=
  {| status := if (code =? ErrorCodes.METHOD_NOT_FOUND)%Z then 404 else 400;
     body := JsonRpcResponse.mk id None (Some (JsonRpcResponse.mk_error code message)) |}.

(** [error.message || 'Internal server error'] *)
Definition messageOrDefault (message : string) : string :=
  if String.eqb message "" then "Internal server error" else message.

(** [None] is a request without a decoded body: reading [request.jsonrpc]
    throws and the outer [catch] answers. *)
Definition handleRequest (h : Js.Host) (body : option JsonRpcRequest.t)
    : State t HttpResponse :=
  (match body with
   | None =>
       log LogParseFailure ;;
       ret (sendError Js.Null ErrorCodes.PARSE_ERROR "Failed to parse request")
   | Some request =>
       let id := JsonRpcRequest.id request in
       if negb (bool_decide (JsonRpcRequest.jsonrpc request = Some "2.0"))
       then ret (sendError id ErrorCodes.INVALID_REQUEST "Invalid JSON-RPC version")
       else if Js.falsyString (JsonRpcRequest.method request)
       then ret (sendError id ErrorCodes.INVALID_REQUEST "Method is required")
       else
         log (LogReceived (Js.showString (JsonRpcRequest.method request))) ;;
         outcome <- routeRequest h request ;;
         match outcome with
         | Return result => ret (sendResult id result)
         | Throw (RpcError code message) =>
             if negb (code =? 0)%Z && negb (String.eqb message "")
             then ret (sendError id code message)
             else ret (sendError id ErrorCodes.INTERNAL_ERROR (messageOrDefault message))
         | Throw (TypeError message) =>
             ret (sendError id ErrorCodes.INTERNAL_ERROR (messageOrDefault message))
         end
   end)%state.

End EnhancedHttpHandler.

(** ** sse-transport.ts *)

(** The body of an error answer: [{ jsonrpc: '2.0', error: { code, message },
    id }]. *)
Record ErrorBody : Type := {
  eb_code : Z;
  eb_message : string;
  eb_id : Js.value
}.

(** What reaches the Express response of a [POST /messages]: an error
    answer of this repository, or whatever the SDK transport wrote. *)
Inductive Reply : Type :=
| JsonReply (status : Z) (body : ErrorBody)
| TransportReply (status : Z) (text : string).

(** The response object: [None] until something is sent; [res.headersSent]
    is whether something was. *)
Definition Res : Type := option Reply.

Definition headersSent (res : Res) : bool := bool_decide (is_Some res).

(** The SDK's [SSEServerTransport], by what this repository calls on it.
    [handlePostMessage] may write to the response and may fail;
    [close] may reject, for instance on a stream that is already closed. *)
Module SSEServerTransport.
Record PostOutcome : Type := {
  written : Res;
  failure : option string
}.
Record t : Type := mk {
  sessionId : string;
  handlePostMessage : option JsonRpcRequest.t -> PostOutcome;
  close : option string
}.
End SSEServerTransport.

Module SSESession.
(** The [server] handle is left out: the manager only stores it. *)
Record t : Type := mk {
  id : string;
  transport : SSEServerTransport.t;
  capabilities : gmap string Js.value;
  createdAt : Z;
  lastActivity : Z
}.

Definition set_lastActivity (now : Z) (s : t) : t :=
  mk (id s) (transport s) (capabilities s) (createdAt s) now.

Definition set_capabilities (c : gmap string Js.value) (s : t) : t :=
  mk (id s) (transport s) c (createdAt s) (lastActivity s).
End SSESession.

(** What the manager does to the outside: closing a transport, and the
    console line of a close that was rejected. *)
Inductive SSEEffect : Type :=
| TransportClosed (sessionId : string)
| CloseErrorLogged (sessionId : string) (error : string)
| HandlerErrorLogged (sessionId : string) (error : string).

Module SSETransportManager.

Record t : Type := mk {
  sessions : gmap string SSESession.t;
  cleanupInterval : bool;
  effects : list SSEEffect
}.

Definition set_sessions (m : gmap string SSESession.t) (this : t) : t :=
  mk m (cleanupInterval this) (effects this).

Definition effect (e : SSEEffect) : State t unit :=
  modify (fun this => mk (sessions this) (cleanupInterval this) (effects this ++ [e])).

Definition removeSession (sessionId : string) : State t unit :=
  (this <- get ;;
   match sessions this !! sessionId with
   | Some session =>
       effect (TransportClosed (SSEServerTransport.sessionId (SSESession.transport session))) ;;
       match SSEServerTransport.close (SSESession.transport session) with
       | Some error => effect (CloseErrorLogged sessionId error)
       | None => ret tt
       end ;;
       modify (fun this => set_sessions (delete sessionId (sessions this)) this)
   | None => ret tt
   end)%state.

Definition staleTimeout : Z := 5 * 60 * 1000.

(** The callback that [startCleanupInterval] schedules every minute. *)
Definition cleanupTick (now : Z) : State t unit :=
  (this <- get ;;
   for_of (map_to_list (sessions this)) (fun '(sessionId, session) =>
     let timeSinceActivity := now - SSESession.lastActivity session in
     if timeSinceActivity >? staleTimeout
     then removeSession sessionId
     else ret tt))%state.

Definition startCleanupInterval : State t unit :=
  modify (fun this => mk (sessions this) true (effects this)).

Definition new : t := execState startCleanupInterval (mk ∅ false []).

(** [transport] is the transport the SDK constructed for the response,
    [connect] the outcome of [server.connect(transport)]. *)
Definition createSession (transport : SSEServerTransport.t) (connect : option string)
    (createdAt lastActivity : Z) : State t (Completion SSESession.t) :=
  (let session :=
     SSESession.mk (SSEServerTransport.sessionId transport) transport ∅
       createdAt lastActivity in
   modify (fun this => set_sessions (<[SSESession.id session := session]> (sessions this)) this) ;;
   match connect with
   | Some error => ret (Throw (TypeError error))
   | None => ret (Return session)
   end)%state.

Definition SESSION_NOT_FOUND : Z := -32000.

(** [body?.id || null] *)
Definition bodyId (body : option JsonRpcRequest.t) : Js.value :=
  match body with
  | Some request =>
      if Js.truthy (JsonRpcRequest.id request) then JsonRpcRequest.id request else Js.Null
  | None => Js.Null
  end.

(** Returns the response object as the call leaves it. *)
Definition handleMessage (sessionId : string) (res : Res)
    (body : option JsonRpcRequest.t) (now : Z) : State t Res :=
  (this <- get ;;
   match sessions this !! sessionId with
   | None =>
       ret (Some (JsonReply 404
              {| eb_code := SESSION_NOT_FOUND;
                 eb_message := "Session not found: " ++ sessionId;
                 eb_id := Js.Null |}))
   | Some session =>
       let session := SSESession.set_lastActivity now session in
       modify (set_sessions (<[sessionId := session]> (sessions this))) ;;
       let outcome :=
         SSEServerTransport.handlePostMessage (SSESession.transport session) body in
       let res := match SSEServerTransport.written outcome with
                  | Some reply => Some reply
                  | None => res
                  end in
       match SSEServerTransport.failure outcome with
       | None => ret res
       | Some error =>
           effect (HandlerErrorLogged sessionId error) ;;
           if negb (headersSent res)
           then ret (Some (JsonReply 500
                       {| eb_code := ErrorCodes.INTERNAL_ERROR;
                          eb_message := "Internal server error";
                          eb_id := bodyId body |}))
           else ret res
       end
   end)%state.

Definition getSession (sessionId : string) : State t (option SSESession.t) :=
  (this <- get ;; ret (sessions this !! sessionId))%state.

(** [Array.from(this.sessions.values())], up to the order, as for the
    session manager. *)
Definition getActiveSessions : State t (list SSESession.t) :=
  (this <- get ;; ret (map_to_list (sessions this)).*2)%state.

Definition updateSessionCapabilities (sessionId : string)
    (capabilities : gmap string Js.value) (now : Z) : State t unit :=
  (this <- get ;;
   match sessions this !! sessionId with
   | Some session =>
       let session' :=
         SSESession.set_lastActivity now
           (SSESession.set_capabilities (capabilities ∪ SSESession.capabilities session)
              session) in
       modify (set_sessions (<[sessionId := session']> (sessions this)))
   | None => ret tt
   end)%state.

Definition destroy : State t unit :=
  (modify (fun this => mk (sessions this) false (effects this)) ;;
   this <- get ;;
   for_of (map_to_list (sessions this)).*1 removeSession)%state.

End SSETransportManager.

(** ** index.ts: the [POST /messages] endpoint *)

Module Index.

(** [sseManager] is [None] when the transport failed to initialise;
    [sessionId] is [req.query.sessionId].  Returns what was sent. *)
Definition postMessages (sessionId : option string) (body : option JsonRpcRequest.t)
    (now : Z) : State (option SSETransportManager.t) Res :=
  fun sseManager =>
    if Js.falsyString sessionId
    then (Some (JsonReply 400
            {| eb_code := -32600; eb_message := "Session ID is required";
               eb_id := Js.Null |}),
          sseManager)
    else match sseManager with
         | None =>
             (Some (JsonReply 500
                {| eb_code := -32603; eb_message := "SSE transport not available";
                   eb_id := Js.Null |}),
              None)
         | Some manager =>
             let '(res, manager') :=
               SSETransportManager.handleMessage (Js.showString sessionId) None body now
                 manager in
             (res, Some manager')
         end.

End Index.

(** ** The specification's rule table, in its own words *)

Module Spec.

(** A party advertises a capability when it marks it in its capability set. *)
Definition advertises (caps : Capabilities.t) (k : CapabilityKey) : bool :=
  match k with
  | Tools => Js.truthy (Capabilities.tools caps)
  | Resources => Js.truthy (Capabilities.resources caps)
  | Prompts => Js.truthy (Capabilities.prompts caps)
  | Logging => Js.truthy (Capabilities.logging caps)
  | Sampling => Js.truthy (Capabilities.sampling caps)
  | Experimental => bool_decide (is_Some (Capabilities.experimental caps))
  end.

(** A party advertises the experimental sub-key [key]: its experimental
    object has the key, with a truthy value. *)
Definition advertisesExperimental (caps : Capabilities.t) (key : string) : bool :=
  match Capabilities.experimental caps with
  | Some features => Js.truthy (Js.own features key)
  | None => false
  end.

(** "tools/resources/prompts/logging: server advertises it AND client
    advertises it; sampling: client advertises it". *)
Definition ruleTable (server client : Capabilities.t) (k : CapabilityKey) : bool :=
  match k with
  | Sampling => advertises client Sampling
  | _ => advertises server k && advertises client k
  end.

(** Whether the negotiated set marks the experimental sub-key [key] true. *)
Definition negotiatedExperimental (n : NegotiatedCapabilities.t) (key : string) : bool :=
  match NegotiatedCapabilities.experimental n with
  | Some features => default false (features !! key)
  | None => false
  end.

(** The keys that the symmetric row of the table covers. *)
Definition symmetricKeys : list CapabilityKey := [Tools; Resources; Prompts; Logging].

(** "A session whose [now - lastActivity] exceeds the threshold". *)
Definition managedStale (threshold now : Z) (session : ManagedSession.t) : bool :=
  now - ManagedSession.lastActivity session >? threshold.

Definition sseStale (now : Z) (session : SSESession.t) : bool :=
  now - SSESession.lastActivity session >? SSETransportManager.staleTimeout.

(** Eviction of one entry when it is stale: what one turn of a sweep loop
    is meant to do to the map of sessions. *)
Definition sweepStep {V : Type} (stale : V → bool) (m : gmap string V)
    (entry : string * V) : gmap string V :=
  if stale entry.2 then delete entry.1 m else m.

(** "Resolve required capability by method-name prefix". *)
Definition requiredCapability (method : string) : option CapabilityKey :=
  if String.prefix "tools/" method then Some Tools
  else if String.prefix "resources/" method then Some Resources
  else if String.prefix "prompts/" method then Some Prompts
  else None.

(** How often the transport of session [id] was closed. *)
Fixpoint closes (id : string) (effects : list SSEEffect) : nat :=
  match effects with
  | [] => 0
  | TransportClosed id' :: rest =>
      (if String.eqb id' id then 1 else 0) + closes id rest
  | _ :: rest => closes id rest
  end.

(** The placeholder of [key] in a template. *)
Definition placeholder (key : string) : string := "{{" ++ key ++ "}}".

(** [pat] occurs in [s]. *)
Definition occurs (pat s : string) : Prop := ∃ x y, s = x ++ pat ++ y.

(** [pat] occurs in [s], as a scan of [s] finds it. *)
Definition occursb (pat s : string) : bool :=
  match Js.find pat s with
  | Some _ => true
  | None => false
  end.


End Spec.

(** ** Concrete requests and states used in the scenarios *)

Module Scenario.

Definition noParams : Params.t :=
  Params.mk None None None None None None None.

(** Client capabilities [{ tools: {} }]. *)
Definition toolsOnly : Capabilities.t :=
  Capabilities.mk Js.Obj Js.Undefined Js.Undefined Js.Undefined Js.Undefined None.

Definition initializeRequest : JsonRpcRequest.t :=
  JsonRpcRequest.mk (Some "2.0") (Js.Num 1) (Some "initialize")
    (Some (Params.mk (Some "2025-06-18") (Some toolsOnly)
             (Some {| ci_name := "test"; ci_version := "1.0" |})
             None None None None)).

Definition resourcesListRequest : JsonRpcRequest.t :=
  JsonRpcRequest.mk (Some "2.0") (Js.Num 2) (Some "resources/list") None.

(** [tools/call] of [random_number] with [min = 10], [max = 5], id [42]. *)
Definition randomNumberRequest : JsonRpcRequest.t :=
  JsonRpcRequest.mk (Some "2.0") (Js.Num 42) (Some "tools/call")
    (Some (Params.mk None None None (Some "random_number")
             (Some (ToolArguments.mk None None Js.Undefined (Some 10) (Some 5) None None
                      None))
             None None)).

(** A host whose clock stands at zero and which evaluates nothing. *)
Definition idleHost : Js.Host :=
  {| Js.now := fun _ => 0;
     Js.Math_random := 0%Q;
     Js.round := fun q => q;
     Js.toISOString := fun _ => "1970-01-01T00:00:00.000Z";
     Js.toLocaleString := fun _ => "1/1/1970, 12:00:00 AM";
     Js.Number_toString := fun _ => "0";
     Js.notAFunction := fun callee => "TypeError: " ++ callee ++ " is not a function";
     Js.evaluate := fun _ => inr "SyntaxError" |}.

Definition toolsListRequest : JsonRpcRequest.t :=
  JsonRpcRequest.mk (Some "2.0") (Js.Num 7) (Some "tools/list") None.


(** A handler whose session negotiated all four server capabilities. *)
Definition fullClient : Capabilities.t :=
  Capabilities.mk Js.Obj Js.Obj Js.Obj Js.Obj Js.Undefined None.

Definition negotiatedHandler : EnhancedHttpHandler.t :=
  EnhancedHttpHandler.mk
    (execState
       (SessionManager.createSession EnhancedHttpHandler.sessionId None None fullClient 0 0)
       (EnhancedHttpHandler.sessionManager EnhancedHttpHandler.new))
    [].

(** A session manager holding one session, last active at time 1000. *)
Definition storedSession : ManagedSession.t :=
  ManagedSession.mk "s1" None None toolsOnly
    (SessionManager.negotiateCapabilities SessionManager.defaultServerCapabilities toolsOnly)
    ∅ 1000 1000.

Definition store : SessionManager.t :=
  SessionManager.mk {[ "s1" := storedSession ]} SessionManager.defaultServerCapabilities.

(** A transport whose inbound handler fails before writing anything and
    whose close is rejected. *)
Definition failingTransport : SSEServerTransport.t :=
  SSEServerTransport.mk "s1"
    (fun _ => {| SSEServerTransport.written := None;
                 SSEServerTransport.failure := Some "boom" |})
    (Some "already closed").

Definition streamingSession : SSESession.t :=
  SSESession.mk "s1" failingTransport ∅ 1000 1000.

Definition streamingManager : SSETransportManager.t :=
  SSETransportManager.mk {[ "s1" := streamingSession ]} true [].

(** A transport whose inbound handler answers 202 and then fails. *)
Definition lateFailingTransport : SSEServerTransport.t :=
  SSEServerTransport.mk "s3"
    (fun _ => {| SSEServerTransport.written := Some (TransportReply 202 "Accepted");
                 SSEServerTransport.failure := Some "boom" |})
    None.

Definition lateFailingManager : SSETransportManager.t :=
  SSETransportManager.mk
    {[ "s3" := SSESession.mk "s3" lateFailingTransport ∅ 1000 1000 ]} true [].

End Scenario.

(** ** Vocabulary of the further properties *)

Module Laws.



(** A replacement text without [$]. *)
Fixpoint noDollar (s : string) : bool :=
  match s with
  | EmptyString => true
  | String c r => negb (Ascii.eqb c "$") && noDollar r
  end.

(** A text without whitespace. *)
Fixpoint noWhitespace (s : string) : bool :=
  match s with
  | EmptyString => true
  | String c r => negb (Js.isWhitespace c) && noWhitespace r
  end.

(** The characters of an arithmetic expression: digits, the four
    operators, parentheses and the decimal point. *)
Definition arithmeticChar (c : ascii) : bool :=
  existsb (Ascii.eqb c) (String.list_ascii_of_string "0123456789+-*/().").

(** The stored sessions agree with their keys and with the negotiation:
    each record carries its key as [id], and its negotiated set is the one
    computed from the server capabilities and the client capabilities that
    it records. *)
Definition consistent (this : SessionManager.t) : Prop :=
  ∀ (key : string) (session : ManagedSession.t),
    SessionManager.sessions this !! key = Some session →
    ManagedSession.id session = key
    ∧ ManagedSession.negotiatedCapabilities session
      = SessionManager.negotiateCapabilities (SessionManager.serverCapabilities this)
          (ManagedSession.clientCapabilities session).

(** A call of a method of the session manager. *)
Inductive Operation : Type :=
| CreateSession (sessionId : string) (clientInfo : option ClientInfo)
    (protocolVersion : option string) (clientCapabilities : Capabilities.t)
    (createdAt lastActivity : Z)
| GetSession (sessionId : string) (now : Z)
| HasCapability (sessionId : string) (capability : CapabilityKey)
| UpdateSessionMetadata (sessionId : string) (metadata : gmap string Js.value) (now : Z)
| RemoveSession (sessionId : string)
| GetActiveSessions
| CleanupStaleSessions (maxInactivityMs : option Z) (now : Z)
| GetServerCapabilities
| GetSessionCapabilities (sessionId : string)
| ClearAllSessions.

(** The manager after the call. *)
Definition perform (this : SessionManager.t) (op : Operation) : SessionManager.t :=
  match op with
  | CreateSession id ci pv caps tc ta =>
      execState (SessionManager.createSession id ci pv caps tc ta) this
  | GetSession id now => execState (SessionManager.getSession id now) this
  | HasCapability id k => execState (SessionManager.hasCapability id k) this
  | UpdateSessionMetadata id md now =>
      execState (SessionManager.updateSessionMetadata id md now) this
  | RemoveSession id => execState (SessionManager.removeSession id) this
  | GetActiveSessions => execState SessionManager.getActiveSessions this
  | CleanupStaleSessions m now =>
      execState (SessionManager.cleanupStaleSessions m now) this
  | GetServerCapabilities => execState SessionManager.getServerCapabilities this
  | GetSessionCapabilities id => execState (SessionManager.getSessionCapabilities id) this
  | ClearAllSessions => execState SessionManager.clearAllSessions this
  end.

(** [Math.random()] lies in [[0, 1)]. *)
Definition unitRandom (h : Js.Host) : Prop :=
  (0 <= Js.Math_random h)%Q ∧ (Js.Math_random h < 1)%Q.

(** What rounding to the nearest number of the language satisfies: it keeps
    the order, and it is exact on the integers up to [2^53] in magnitude,
    which are numbers of the language. *)
Definition roundsToNearest (h : Js.Host) : Prop :=
  (∀ x y : Q, (x <= y)%Q → (Js.round h x <= Js.round h y)%Q)
  ∧ (∀ z : Z, (Z.abs z ≤ 2 ^ 53)%Z → (Js.round h (inject_Z z) == inject_Z z)%Q).

(** The number of maximal runs of characters that are not whitespace;
    [inWord] says that the previous character belonged to a run. *)
Fixpoint countWords (inWord : bool) (s : string) : nat :=
  match s with
  | EmptyString => 0
  | String c r =>
      if Js.isWhitespace c then countWords false r
      else ((if inWord then 0 else 1) + countWords true r)%nat
  end.

(** A text of whitespace only. *)
Fixpoint blank (s : string) : bool :=
  match s with
  | EmptyString => true
  | String c r => Js.isWhitespace c && blank r
  end.

(** The answer that the handler builds from what the router gave. *)
Definition answerOf (id : Js.value) (outcome : Completion Result) : HttpResponse :=
  match outcome with
  | Return result => EnhancedHttpHandler.sendResult id result
  | Throw (RpcError code message) =>
      if negb (code =? 0)%Z && negb (String.eqb message "")
      then EnhancedHttpHandler.sendError id code message
      else EnhancedHttpHandler.sendError id ErrorCodes.INTERNAL_ERROR
             (EnhancedHttpHandler.messageOrDefault message)
  | Throw (TypeError message) =>
      EnhancedHttpHandler.sendError id ErrorCodes.INTERNAL_ERROR
        (EnhancedHttpHandler.messageOrDefault message)
  end.

(** The handler after the line that records a request. *)
Definition received (method : option string) (this : EnhancedHttpHandler.t)
    : EnhancedHttpHandler.t :=
  EnhancedHttpHandler.mk (EnhancedHttpHandler.sessionManager this)
    (EnhancedHttpHandler.console this ++ [LogReceived (Js.showString method)]).

(** What the server offers for the experimental feature [feature]:
    [serverCapabilities.experimental?.[feature]]. *)
Definition offered (serverExperimental : option (gmap string Js.value))
    (feature : string) : Js.value :=
  match serverExperimental with
  | Some e => Js.get e feature
  | None => Js.Undefined
  end.

End Laws.

(** ** Vocabulary of the properties of the streaming sessions *)

Module Streams.

(** The id of the transport bound to a session. *)
Definition transportId (session : SSESession.t) : string :=
  SSEServerTransport.sessionId (SSESession.transport session).

(** Each stored session sits under the id of its transport, which is also
    the [id] it carries. *)
Definition keyed (this : SSETransportManager.t) : Prop :=
  ∀ (key : string) (session : SSESession.t),
    SSETransportManager.sessions this !! key = Some session →
    SSESession.id session = key ∧ transportId session = key.

(** How many entries of [l] are selected and sit under the key [t]. *)
Definition selected (select : SSESession.t → bool) (t : string)
    (l : list (string * SSESession.t)) : nat :=
  length (List.filter (λ kv, select kv.2 && String.eqb kv.1 t) l).

(** A call of a method of the transport manager, or a run of the callback
    of its cleanup interval. *)
Inductive Operation : Type :=
| CreateSession (transport : SSEServerTransport.t) (connect : option string)
    (createdAt lastActivity : Z)
| HandleMessage (sessionId : string) (res : Res) (body : option JsonRpcRequest.t) (now : Z)
| GetSession (sessionId : string)
| RemoveSession (sessionId : string)
| GetActiveSessions
| UpdateSessionCapabilities (sessionId : string) (capabilities : gmap string Js.value)
    (now : Z)
| CleanupTick (now : Z)
| Destroy.

(** The manager after the call. *)
Definition perform (this : SSETransportManager.t) (op : Operation)
    : SSETransportManager.t :=
  match op with
  | CreateSession transport connect tc ta =>
      execState (SSETransportManager.createSession transport connect tc ta) this
  | HandleMessage id res body now =>
      execState (SSETransportManager.handleMessage id res body now) this
  | GetSession id => execState (SSETransportManager.getSession id) this
  | RemoveSession id => execState (SSETransportManager.removeSession id) this
  | GetActiveSessions => execState SSETransportManager.getActiveSessions this
  | UpdateSessionCapabilities id caps now =>
      execState (SSETransportManager.updateSessionCapabilities id caps now) this
  | CleanupTick now => execState (SSETransportManager.cleanupTick now) this
  | Destroy => execState SSETransportManager.destroy this
  end.

End Streams.

Module Fixtures.





(** A host whose random draw is one half, whose arithmetic is exact, and
    which prints the integers and the positive halves. *)
Definition halfHost : Js.Host :=
  {| Js.now := fun _ => 1700000000123;
     Js.Math_random := (1 # 2)%Q;
     Js.round := fun q => q;
     Js.toISOString := fun _ => "2023-11-14T22:13:20.123Z";
     Js.toLocaleString := fun _ => "11/14/2023, 10:13:20 PM";
     Js.Number_toString := fun q =>
       if Qeq_bool q (inject_Z (Qfloor q)) then pretty (Qfloor q)
       else pretty (Qfloor q) ++ ".5";
     Js.notAFunction := fun callee => "TypeError: " ++ callee ++ " is not a function";
     Js.evaluate := fun _ => inl "4" |}.

End Fixtures.

(** ** index.ts: the choice of the transport at start-up *)

Module Startup.

(** The loop of [parseArgs] from index [i] on: [args] is what is left of
    [process.argv.slice(2)] from [i], so [args[i + 1]] is the head of the
    rest, [undefined] past the end. *)
Fixpoint parseArgsFrom (args : list string) (transport : string) : string :=
  match args with
  | [] => transport
  | arg :: rest =>
      parseArgsFrom rest
        (if String.eqb arg "--transport" && negb (Js.falsyString (head rest))
         then Js.showString (head rest)
         else transport)
  end.

Definition parseArgs (argv : list string) : string :=
  parseArgsFrom (drop 2 argv) "stdio".

(** [transport.type] of [loadConfig]:
    [transport || process.env.TRANSPORT_TYPE || 'stdio']. *)
Definition loadConfig_transport_type (argv : list string) (TRANSPORT_TYPE : option string)
    : string :=
  let transport := parseArgs argv in
  if negb (Js.falsyString (Some transport)) then transport
  else if negb (Js.falsyString TRANSPORT_TYPE) then Js.showString TRANSPORT_TYPE
  else "stdio".

End Startup.

(** * Properties *)

(** ** Capability negotiation *)

Lemma set_lookup {V : Type} (o : gmap string V) (f k : string) (v : V) :
  Js.set o f v !! k
  = if decide (f = k) then (if String.eqb k "__proto__" then o !! k else Some v)
    else o !! k.
Proof.
  unfold Js.set. case_decide as Hk.
  - subst k. destruct (String.eqb f "__proto__"); [done|apply lookup_insert_eq].
  - destruct (String.eqb f "__proto__"); [done|by rewrite lookup_insert_ne].
Qed.

Section Negotiation.

Variable serverExperimental : gmap string Js.value.

Lemma negotiateFeature_lookup (acc : gmap string bool) (entry : string * Js.value) (k : string) :
  SessionManager.negotiateFeature serverExperimental acc entry !! k =
    if decide (entry.1 = k)
    then if Js.truthy entry.2 && Js.truthy (Js.get serverExperimental k)
            && negb (String.eqb k "__proto__")
         then Some true else acc !! k
    else acc !! k.
Proof.
  destruct entry as [feature clientSupport]; simpl.
  case_decide as Hk.
  - subst k. destruct (Js.truthy clientSupport && _); simpl; [|done].
    rewrite set_lookup, decide_True by done. by destruct (String.eqb feature "__proto__").
  - destruct (Js.truthy clientSupport && _); [|done].
    by rewrite set_lookup, decide_False.
Qed.

Lemma negotiate_loop_some (l : list (string * Js.value)) (acc : gmap string bool)
    (k : string) (b : bool) :
  foldl (SessionManager.negotiateFeature serverExperimental) acc l !! k = Some b →
  acc !! k = Some b ∨
  (b = true ∧ k ≠ "__proto__"
   ∧ ∃ v, (k, v) ∈ l ∧ Js.truthy v = true
          ∧ Js.truthy (Js.get serverExperimental k) = true).
Proof.
  revert acc. induction l as [|[f v] l IH]; intros acc Hl; cbn [foldl] in Hl.
  - by left.
  - apply IH in Hl as [Hacc | (-> & Hproto & w & Hw & Hc & Hs)].
    + rewrite negotiateFeature_lookup in Hacc. simpl in Hacc.
      case_decide as Hf; [subst f|by left].
      destruct (Js.truthy v) eqn:Hv; simpl in Hacc; [|by left].
      destruct (Js.truthy (Js.get serverExperimental k)) eqn:Hs; simpl in Hacc; [|by left].
      destruct (String.eqb_spec k "__proto__") as [->|Hproto]; simpl in Hacc; [by left|].
      right. simplify_eq. split_and!; [done..|]. exists v. split_and!; [left|done..].
    + right. split_and!; [done..|]. exists w. split_and!; [by right|done..].
Qed.

Lemma negotiate_loop_true (l : list (string * Js.value)) (acc : gmap string bool)
    (k : string) (v : Js.value) :
  (k, v) ∈ l → Js.truthy v = true → Js.truthy (Js.get serverExperimental k) = true →
  k ≠ "__proto__" →
  foldl (SessionManager.negotiateFeature serverExperimental) acc l !! k = Some true.
Proof.
  intros Hin Hv Hs Hproto. apply String.eqb_neq in Hproto.
  assert (Hkeep : ∀ l' acc', acc' !! k = Some true →
    foldl (SessionManager.negotiateFeature serverExperimental) acc' l' !! k = Some true).
  { induction l' as [|e l' IH]; intros acc' Hacc; cbn [foldl]; [done|].
    apply IH. rewrite negotiateFeature_lookup.
    case_decide; [|done]. by destruct (_ && _). }
  revert acc. induction l as [|e l IH]; intros acc; [by apply elem_of_nil in Hin|].
  apply elem_of_cons in Hin as [<- | Hin]; cbn [foldl].
  - apply Hkeep. rewrite negotiateFeature_lookup; simpl.
    rewrite decide_True by done. by rewrite Hv, Hs, Hproto.
  - by apply IH.
Qed.

End Negotiation.

(** What the loop of [negotiateCapabilities] does, feature by feature: a
    feature is negotiated exactly when the client advertises it and the
    lookup in the server's experimental object gives a truthy value, be it
    a property of that object or a member it inherits; under the name
    [__proto__] nothing is negotiated. *)
Lemma negotiatedExperimental_iff (server client : Capabilities.t) (key : string) :
  Spec.negotiatedExperimental (SessionManager.negotiateCapabilities server client) key = true
  ↔ Spec.advertisesExperimental client key = true
    ∧ Js.truthy (Laws.offered (Capabilities.experimental server) key) = true
    ∧ key ≠ "__proto__".
Proof.
  unfold Spec.negotiatedExperimental, Spec.advertisesExperimental, Laws.offered,
    SessionManager.negotiateCapabilities; simpl.
  destruct (Capabilities.experimental client) as [ce|],
           (Capabilities.experimental server) as [se|]; simpl;
    try (split; [done | by intros (? & ? & ?)]).
  split.
  - destruct (foldl _ _ _ !! key) as [b|] eqn:Hl; simpl; [intros ->|done].
    apply negotiate_loop_some in Hl as [Hl | (_ & Hproto & v & Hin & Hv & Hs)].
    + by rewrite lookup_empty in Hl.
    + apply elem_of_map_to_list in Hin. split_and!; [|done..].
      unfold Js.own. by rewrite Hin.
  - intros (Hc & Hs & Hproto). unfold Js.own in Hc.
    destruct (ce !! key) as [v|] eqn:Hk; simpl in Hc; [|done].
    apply elem_of_map_to_list in Hk.
    by rewrite (negotiate_loop_true se _ ∅ key v Hk Hc Hs Hproto).
Qed.

(** The lookup in the server's experimental object is truthy for a feature
    that the server advertises and for a name that the object inherits and
    does not define itself, and for no other. *)
Lemma offered_truthy (server : Capabilities.t) (key : string) :
  Js.truthy (Laws.offered (Capabilities.experimental server) key) = true
  ↔ Spec.advertisesExperimental server key = true
    ∨ ∃ features, Capabilities.experimental server = Some features
                  ∧ features !! key = None ∧ Js.inherited key = true.
Proof.
  unfold Laws.offered, Spec.advertisesExperimental, Js.get, Js.own.
  destruct (Capabilities.experimental server) as [features|]; simpl.
  - destruct (features !! key) as [v|] eqn:Hk; simpl.
    + split; [by left|]. by intros [?|(? & [= <-] & ? & ?)]; [|congruence].
    + destruct (Js.inherited key) eqn:Hi; simpl.
      * split; [|done]. intros _. right. by exists features.
      * split; [done|]. by intros [?|(? & _ & _ & ?)].
  - split; [done|]. by intros [?|(? & ? & _)].
Qed.

Lemma negotiatedFlag_ruleTable (server client : Capabilities.t) (k : CapabilityKey) :
  SessionManager.negotiatedFlag (SessionManager.negotiateCapabilities server client) k
  = Spec.ruleTable server client k.
Proof.
  destruct k; simpl; try reflexivity.
  by destruct (Capabilities.experimental client), (Capabilities.experimental server).
Qed.

(** The rule that negotiation follows, key by key: each of tools,
    resources, prompts and logging is negotiated exactly when the server and
    the client both advertise it; sampling exactly when the client
    advertises it, whatever the server advertises; and an experimental
    sub-key exactly when the client advertises it and the server's
    experimental object has it with a truthy value or, not having it,
    inherits the name. *)
Lemma negotiateCapabilities_rule (server client : Capabilities.t) :
  let negotiated := SessionManager.negotiateCapabilities server client in
  Forall (fun k =>
      SessionManager.negotiatedFlag negotiated k = true
      ↔ Spec.advertises server k = true ∧ Spec.advertises client k = true)
    Spec.symmetricKeys
  ∧ (NegotiatedCapabilities.sampling negotiated = true
     ↔ Spec.advertises client Sampling = true)
  ∧ (∀ server' : Capabilities.t,
       NegotiatedCapabilities.sampling
         (SessionManager.negotiateCapabilities server' client)
       = NegotiatedCapabilities.sampling negotiated)
  ∧ (∀ key : string,
       Spec.negotiatedExperimental negotiated key = true
       ↔ Spec.advertisesExperimental client key = true
         ∧ key ≠ "__proto__"
         ∧ (Spec.advertisesExperimental server key = true
            ∨ ∃ features, Capabilities.experimental server = Some features
                          ∧ features !! key = None ∧ Js.inherited key = true)).
Proof.
  intros negotiated. split_and!.
  - unfold Spec.symmetricKeys.
    rewrite !Forall_cons, Forall_nil.
    split_and!; try done; subst negotiated; simpl; rewrite andb_true_iff; tauto.
  - reflexivity.
  - reflexivity.
  - intros key. subst negotiated. rewrite negotiatedExperimental_iff, offered_truthy. tauto.
Qed.

(** C1 (what the code does where the claim fails).  A server that
    advertises no experimental feature at all, [{ experimental: {} }], and a
    client that advertises the feature [constructor] negotiate
    [constructor]: the lookup [serverCapabilities.experimental[feature]]
    finds the member that the empty object inherits from
    [Object.prototype].  So an experimental sub-key is negotiated true
    although only one side advertises it.  The flags of tools, resources,
    prompts, logging and sampling are negotiated there as the rule table
    says. *)
Theorem negotiation_grants_inherited_feature :
  let server :=
    Capabilities.mk Js.Obj Js.Obj Js.Obj Js.Obj Js.Undefined (Some ∅) in
  let client :=
    Capabilities.mk Js.Obj Js.Undefined Js.Undefined Js.Undefined Js.Undefined
      (Some {[ "constructor" := Js.Bool true ]}) in
  let negotiated := SessionManager.negotiateCapabilities server client in
  Spec.advertisesExperimental server "constructor" = false
  ∧ Spec.advertisesExperimental client "constructor" = true
  ∧ Spec.negotiatedExperimental negotiated "constructor" = true
  ∧ negotiated
    = NegotiatedCapabilities.mk true false false false false
        (Some {[ "constructor" := true ]})
  ∧ (∀ k : CapabilityKey,
       SessionManager.negotiatedFlag negotiated k = Spec.ruleTable server client k).
Proof.
  intros server client negotiated.
  assert (Hn : negotiated
               = NegotiatedCapabilities.mk true false false false false
                   (Some {[ "constructor" := true ]})).
  { subst negotiated server client. unfold SessionManager.negotiateCapabilities; simpl.
    by rewrite map_to_list_singleton. }
  split_and!; [done|done| |exact Hn|intros k; apply negotiatedFlag_ruleTable].
  rewrite Hn. unfold Spec.negotiatedExperimental; simpl.
  by rewrite lookup_singleton_eq.
Qed.

(** ** The session store *)

Lemma createSession_exec (this : SessionManager.t) (id : string)
    (ci : option ClientInfo) (pv : option string) (caps : Capabilities.t) (tc ta : Z) :
  SessionManager.createSession id ci pv caps tc ta this =
    (let session :=
       ManagedSession.mk id ci pv caps
         (SessionManager.negotiateCapabilities (SessionManager.serverCapabilities this) caps)
         ∅ tc ta in
     (session,
      SessionManager.mk (<[id := session]> (SessionManager.sessions this))
        (SessionManager.serverCapabilities this))).
Proof. reflexivity. Qed.

Lemma hasCapability_exec (this : SessionManager.t) (id : string) (k : CapabilityKey) :
  SessionManager.hasCapability id k this =
    (match SessionManager.sessions this !! id with
     | Some session =>
         SessionManager.negotiatedFlag (ManagedSession.negotiatedCapabilities session) k
     | None => false
     end, this).
Proof.
  unfold SessionManager.hasCapability, bind, get, ret; simpl.
  by destruct (SessionManager.sessions this !! id).
Qed.

(** C2. Right after [createSession id _ _ clientCaps], [hasCapability id k]
    is the value of the rule table at the server's and the client's
    advertised sets, for every capability [k]; and for an id without a stored
    session [hasCapability] is false for every [k]. *)
Theorem hasCapability_matches_rule_table (this : SessionManager.t) (id : string)
    (ci : option ClientInfo) (pv : option string) (clientCaps : Capabilities.t)
    (tc ta : Z) (k : CapabilityKey) :
  evalState (SessionManager.hasCapability id k)
    (execState (SessionManager.createSession id ci pv clientCaps tc ta) this)
  = Spec.ruleTable (SessionManager.serverCapabilities this) clientCaps k
  ∧ (SessionManager.sessions this !! id = None →
     evalState (SessionManager.hasCapability id k) this = false).
Proof.
  unfold evalState, execState. rewrite !hasCapability_exec, createSession_exec; simpl.
  split.
  - rewrite lookup_insert_eq; simpl. apply negotiatedFlag_ruleTable.
  - by intros ->.
Qed.

(** C5. [createSession] always returns a session, and the record it stores
    under the id replaces whatever was there: after two calls with the same
    id, the store is the one a single second call would have produced, the
    negotiated set is the one computed from the second call's client
    capabilities, the metadata is empty, and both timestamps are the second
    call's clock readings. *)
Theorem createSession_replaces (this : SessionManager.t) (id : string)
    (ci1 ci2 : option ClientInfo) (pv1 pv2 : option string)
    (caps1 caps2 : Capabilities.t) (tc1 ta1 tc2 ta2 : Z) :
  let first := execState (SessionManager.createSession id ci1 pv1 caps1 tc1 ta1) this in
  let second := SessionManager.createSession id ci2 pv2 caps2 tc2 ta2 first in
  let session :=
    ManagedSession.mk id ci2 pv2 caps2
      (SessionManager.negotiateCapabilities (SessionManager.serverCapabilities this) caps2)
      ∅ tc2 ta2 in
  second.1 = session
  ∧ SessionManager.sessions second.2 !! id = Some session
  ∧ second.2 = execState (SessionManager.createSession id ci2 pv2 caps2 tc2 ta2) this
  ∧ (∀ other : string, other ≠ id →
       SessionManager.sessions second.2 !! other = SessionManager.sessions this !! other).
Proof.
  intros first second session. subst first second session.
  unfold execState. rewrite !createSession_exec; simpl.
  split_and!.
  - reflexivity.
  - apply lookup_insert_eq.
  - by rewrite insert_insert_eq.
  - intros other Hne. by rewrite !lookup_insert_ne.
Qed.

Lemma getSession_exec (this : SessionManager.t) (id : string) (now : Z) :
  SessionManager.getSession id now this =
    match SessionManager.sessions this !! id with
    | Some session =>
        (Some (ManagedSession.set_lastActivity now session),
         SessionManager.mk
           (<[id := ManagedSession.set_lastActivity now session]>
              (SessionManager.sessions this))
           (SessionManager.serverCapabilities this))
    | None => (None, this)
    end.
Proof.
  unfold SessionManager.getSession, bind, get, ret; simpl.
  by destruct (SessionManager.sessions this !! id).
Qed.

(** C10. [hasCapability] only reads the store: the manager after the call
    is the manager before it, so no session's [lastActivity] moves and a
    following sweep evicts what it would have evicted anyway; [getSession],
    in contrast, stamps [lastActivity] of the session it finds. *)
Theorem hasCapability_leaves_store (this : SessionManager.t) (id : string)
    (k : CapabilityKey) :
  execState (SessionManager.hasCapability id k) this = this
  ∧ (∀ (maxInactivityMs : option Z) (now : Z),
       execState (bind (SessionManager.hasCapability id k)
                    (fun _ => SessionManager.cleanupStaleSessions maxInactivityMs now)) this
       = execState (SessionManager.cleanupStaleSessions maxInactivityMs now) this)
  ∧ (∀ (now : Z) (session : ManagedSession.t),
       SessionManager.sessions this !! id = Some session →
       SessionManager.sessions (execState (SessionManager.getSession id now) this) !! id
       = Some (ManagedSession.set_lastActivity now session)).
Proof.
  unfold execState. split_and!.
  - by rewrite hasCapability_exec.
  - intros maxInactivityMs now. unfold bind at 1. by rewrite hasCapability_exec.
  - intros now session Hs. rewrite getSession_exec, Hs; simpl.
    apply lookup_insert_eq.
Qed.

(** ** The idle sweep *)

Section Sweep.

Context {V : Type} (stale : V → bool).

Lemma sweep_keeps_absent (l : list (string * V)) (m : gmap string V) (k : string) :
  m !! k = None → foldl (Spec.sweepStep stale) m l !! k = None.
Proof.
  revert m. induction l as [|[k' v] l IH]; intros m Hm; cbn [foldl]; [done|].
  apply IH. unfold Spec.sweepStep; simpl. destruct (stale v); [|done].
  rewrite lookup_delete. by case_decide.
Qed.

Lemma sweep_evicts (l : list (string * V)) (m : gmap string V) (k : string) (v : V) :
  (k, v) ∈ l → stale v = true → foldl (Spec.sweepStep stale) m l !! k = None.
Proof.
  revert m. induction l as [|e l IH]; intros m Hin Hv; [by apply elem_of_nil in Hin|].
  cbn [foldl]. apply elem_of_cons in Hin as [<- | Hin]; [|by apply IH].
  apply sweep_keeps_absent. unfold Spec.sweepStep; simpl. rewrite Hv.
  apply lookup_delete_eq.
Qed.

Lemma sweep_keeps (l : list (string * V)) (m : gmap string V) (k : string) :
  (∀ v, (k, v) ∈ l → stale v = false) → foldl (Spec.sweepStep stale) m l !! k = m !! k.
Proof.
  revert m. induction l as [|[k' v] l IH]; intros m Hl; cbn [foldl]; [done|].
  rewrite IH by (intros w Hw; apply Hl; by right).
  unfold Spec.sweepStep; simpl. destruct (stale v) eqn:Hv; [|done].
  apply lookup_delete_ne. intros ->.
  specialize (Hl v (list_elem_of_here _ _)). congruence.
Qed.

Lemma sweep_filter (m : gmap string V) :
  foldl (Spec.sweepStep stale) m (map_to_list m) = filter (λ kv, stale kv.2 = false) m.
Proof.
  apply map_eq; intros k.
  destruct (m !! k) as [v|] eqn:Hk.
  - destruct (stale v) eqn:Hv.
    + rewrite (sweep_evicts _ _ k v) by (by try apply elem_of_map_to_list).
      symmetry. apply map_lookup_filter_None. right. intros w Hw; simpl.
      congruence.
    + rewrite sweep_keeps.
      * rewrite Hk. symmetry. by apply map_lookup_filter_Some.
      * intros w Hw%elem_of_map_to_list. congruence.
  - rewrite sweep_keeps_absent by done.
    symmetry. apply map_lookup_filter_None. by left.
Qed.

Lemma elem_of_sweep_values (m : gmap string V) (v : V) :
  v ∈ (map_to_list (filter (λ kv, stale kv.2 = false) m)).*2
  ↔ ∃ k, m !! k = Some v ∧ stale v = false.
Proof.
  rewrite list_elem_of_fmap. split.
  - intros [[k w] [-> Hin]]. apply elem_of_map_to_list in Hin.
    apply map_lookup_filter_Some in Hin as [? ?]. by exists k.
  - intros (k & Hk & Hv). exists (k, v). split; [done|].
    apply elem_of_map_to_list. by apply map_lookup_filter_Some.
Qed.

End Sweep.

Import Spec.

Lemma cleanupStaleSessions_loop (threshold now : Z)
    (l : list (string * ManagedSession.t)) (this : SessionManager.t) :
  execState
    (for_of l (fun '(sessionId, session) =>
       if now - ManagedSession.lastActivity session >? threshold
       then SessionManager.removeSession sessionId
       else ret tt)) this
  = SessionManager.set_sessions
      (foldl (sweepStep (managedStale threshold now)) (SessionManager.sessions this) l)
      this.
Proof.
  revert this. induction l as [|[id s] l IH]; intros this; cbn [for_of foldl].
  - by destruct this.
  - unfold execState, bind in *. unfold sweepStep at 2, managedStale at 2; simpl.
    destruct (now - ManagedSession.lastActivity s >? threshold);
      simpl; rewrite IH; reflexivity.
Qed.

Lemma cleanupStaleSessions_exec (maxInactivityMs : option Z) (now : Z)
    (this : SessionManager.t) :
  SessionManager.sessions
    (execState (SessionManager.cleanupStaleSessions maxInactivityMs now) this)
  = filter
      (λ kv, managedStale (default SessionManager.defaultMaxInactivityMs maxInactivityMs)
               now kv.2 = false)
      (SessionManager.sessions this).
Proof.
  unfold SessionManager.cleanupStaleSessions.
  change (execState (bind get ?f) this) with (execState (f this) this).
  cbv beta zeta. rewrite cleanupStaleSessions_loop; simpl. apply sweep_filter.
Qed.

Lemma sse_removeSession_sessions (id : string) (this : SSETransportManager.t) :
  SSETransportManager.sessions (execState (SSETransportManager.removeSession id) this)
  = delete id (SSETransportManager.sessions this).
Proof.
  unfold execState, SSETransportManager.removeSession, bind, get; simpl.
  destruct (SSETransportManager.sessions this !! id) as [s|] eqn:Hs; simpl.
  - by destruct (SSEServerTransport.close (SSESession.transport s)).
  - symmetry. by apply delete_id.
Qed.

Lemma cleanupTick_loop (now : Z) (l : list (string * SSESession.t))
    (this : SSETransportManager.t) :
  SSETransportManager.sessions
    (execState
       (for_of l (fun '(sessionId, session) =>
          if now - SSESession.lastActivity session >? SSETransportManager.staleTimeout
          then SSETransportManager.removeSession sessionId
          else ret tt)) this)
  = foldl (sweepStep (sseStale now)) (SSETransportManager.sessions this) l.
Proof.
  revert this. induction l as [|[id s] l IH]; intros this; cbn [for_of foldl]; [done|].
  unfold execState, bind in *. unfold sweepStep at 2, sseStale at 2; simpl.
  destruct (now - SSESession.lastActivity s >? SSETransportManager.staleTimeout).
  - pose proof (sse_removeSession_sessions id this) as Hrm. unfold execState in Hrm.
    destruct (SSETransportManager.removeSession id this) as [[] this'].
    simpl in *. by rewrite IH, Hrm.
  - simpl. by rewrite IH.
Qed.

Lemma cleanupTick_exec (now : Z) (this : SSETransportManager.t) :
  SSETransportManager.sessions (execState (SSETransportManager.cleanupTick now) this)
  = filter (λ kv, sseStale now kv.2 = false) (SSETransportManager.sessions this).
Proof.
  unfold SSETransportManager.cleanupTick.
  change (execState (bind get ?f) this) with (execState (f this) this).
  cbv beta. rewrite cleanupTick_loop. apply sweep_filter.
Qed.

(** C6. A sweep at time [now] keeps exactly the sessions that are not timed
    out: the store after it is the store before it without the sessions whose
    inactivity [now - lastActivity] exceeds the threshold, and the list of
    active sessions holds a session exactly when it was stored before the
    sweep and its inactivity is within the threshold.  This holds for the
    session manager's sweep and for the tick of the streaming transport
    manager. *)
Theorem sweep_evicts_exactly_stale (maxInactivityMs : option Z) (now : Z)
    (this : SessionManager.t) (sse : SSETransportManager.t) :
  let threshold := default SessionManager.defaultMaxInactivityMs maxInactivityMs in
  let after := execState (SessionManager.cleanupStaleSessions maxInactivityMs now) this in
  let sseAfter := execState (SSETransportManager.cleanupTick now) sse in
  (∀ id : string,
     SessionManager.sessions after !! id =
       match SessionManager.sessions this !! id with
       | Some session =>
           if now - ManagedSession.lastActivity session >? threshold
           then None else Some session
       | None => None
       end)
  ∧ (∀ session : ManagedSession.t,
       session ∈ evalState SessionManager.getActiveSessions after
       ↔ ∃ id, SessionManager.sessions this !! id = Some session
               ∧ (now - ManagedSession.lastActivity session ≤ threshold)%Z)
  ∧ (∀ id : string,
       SSETransportManager.sessions sseAfter !! id =
         match SSETransportManager.sessions sse !! id with
         | Some session =>
             if now - SSESession.lastActivity session >? SSETransportManager.staleTimeout
             then None else Some session
         | None => None
         end)
  ∧ (∀ session : SSESession.t,
       session ∈ evalState SSETransportManager.getActiveSessions sseAfter
       ↔ ∃ id, SSETransportManager.sessions sse !! id = Some session
               ∧ (now - SSESession.lastActivity session
                  ≤ SSETransportManager.staleTimeout)%Z).
Proof.
  intros threshold after sseAfter. subst after sseAfter.
  assert (Hgt : ∀ a b : Z, (a >? b) = false ↔ (a ≤ b)%Z) by (intros; lia).
  split_and!.
  - intros id. rewrite cleanupStaleSessions_exec, map_lookup_filter.
    destruct (SessionManager.sessions this !! id) as [s|]; simpl; [|done].
    unfold managedStale. fold threshold.
    destruct (now - ManagedSession.lastActivity s >? threshold); by simplify_option_eq.
  - intros session. unfold evalState, SessionManager.getActiveSessions, bind, get, ret; simpl.
    rewrite cleanupStaleSessions_exec, elem_of_sweep_values.
    unfold managedStale. fold threshold. by setoid_rewrite Hgt.
  - intros id. rewrite cleanupTick_exec, map_lookup_filter.
    destruct (SSETransportManager.sessions sse !! id) as [s|]; simpl; [|done].
    unfold sseStale.
    destruct (now - SSESession.lastActivity s >? _); by simplify_option_eq.
  - intros session.
    unfold evalState, SSETransportManager.getActiveSessions, bind, get, ret; simpl.
    rewrite cleanupTick_exec, elem_of_sweep_values.
    unfold sseStale. by setoid_rewrite Hgt.
Qed.

(** ** The capability gate of the router *)

Lemma prefix_cons_inv (c : ascii) (p s : string) :
  String.prefix (String c p) s = true →
  ∃ s', s = String c s' ∧ String.prefix p s' = true.
Proof.
  destruct s as [|d s']; simpl; [done|].
  destruct (ascii_dec c d) as [<-|]; [|done]. eauto.
Qed.

Lemma gate_rejects (this : EnhancedHttpHandler.t) (k : CapabilityKey) (message : string)
    (rest : State EnhancedHttpHandler.t (Completion Result)) :
  evalState (SessionManager.hasCapability EnhancedHttpHandler.sessionId k)
    (EnhancedHttpHandler.sessionManager this) = false →
  EnhancedHttpHandler.gate k message rest this
  = (Throw (RpcError ErrorCodes.METHOD_NOT_FOUND message), this).
Proof.
  unfold evalState, EnhancedHttpHandler.gate, EnhancedHttpHandler.onSessionManager, bind.
  rewrite hasCapability_exec; simpl. intros ->. by destruct this.
Qed.

Lemma gate_passes (this : EnhancedHttpHandler.t) (k : CapabilityKey) (message : string)
    (rest : State EnhancedHttpHandler.t (Completion Result)) :
  evalState (SessionManager.hasCapability EnhancedHttpHandler.sessionId k)
    (EnhancedHttpHandler.sessionManager this) = true →
  EnhancedHttpHandler.gate k message rest this = rest this.
Proof.
  unfold evalState, EnhancedHttpHandler.gate, EnhancedHttpHandler.onSessionManager, bind.
  rewrite hasCapability_exec; simpl. intros ->. by destruct this.
Qed.

Ltac peel_prefix H :=
  repeat (apply prefix_cons_inv in H as (? & -> & H)).

(** Runs the [switch] of the router on a method whose first characters are
    known, splitting on the comparisons that remain open. *)
Ltac switch_on_method Hmethod :=
  unfold EnhancedHttpHandler.routeRequest; rewrite Hmethod;
  cbn [Js.strictEq String.eqb Ascii.eqb Bool.eqb andb];
  repeat match goal with
         | |- context [String.eqb ?s ?l] => destruct (String.eqb s l)
         end.

Ltac rejected_by_gate :=
  eexists; split;
  [|intros this Hcap; first [by apply gate_rejects | reflexivity]];
  reflexivity.

Lemma routeRequest_gated (h : Js.Host) (request : JsonRpcRequest.t)
    (method : string) (k : CapabilityKey) :
  JsonRpcRequest.method request = Some method →
  Spec.requiredCapability method = Some k →
  ∃ message,
    String.eqb message "" = false
    ∧ ∀ this : EnhancedHttpHandler.t,
        evalState (SessionManager.hasCapability EnhancedHttpHandler.sessionId k)
          (EnhancedHttpHandler.sessionManager this) = false →
        EnhancedHttpHandler.routeRequest h request this
        = (Throw (RpcError ErrorCodes.METHOD_NOT_FOUND message), this).
Proof.
  intros Hm Hk. unfold Spec.requiredCapability in Hk.
  destruct (String.prefix "tools/" method) eqn:Ht;
    [|destruct (String.prefix "resources/" method) eqn:Hr;
      [|destruct (String.prefix "prompts/" method) eqn:Hp; [|done]]];
    simplify_eq.
  - peel_prefix Ht. switch_on_method Hm; rejected_by_gate.
  - peel_prefix Hr. switch_on_method Hm; rejected_by_gate.
  - peel_prefix Hp. switch_on_method Hm; rejected_by_gate.
Qed.

Lemma gated_method_nonempty (method : string) (k : CapabilityKey) :
  Spec.requiredCapability method = Some k → Js.falsyString (Some method) = false.
Proof.
  unfold Spec.requiredCapability. destruct method; [done|]. done.
Qed.

Lemma no_session_no_capability (this : SessionManager.t) (id : string) (k : CapabilityKey) :
  SessionManager.sessions this !! id = None →
  evalState (SessionManager.hasCapability id k) this = false.
Proof. unfold evalState. rewrite hasCapability_exec. by intros ->. Qed.

(** C3. A [tools/*], [resources/*] or [prompts/*] request on a session that
    has not negotiated the corresponding capability (a missing session
    included) is answered with error code -32601: the router throws before
    it logs or does anything, the handler's state is left as it was apart
    from the line that records the request, and the answer carries no result.
    In the scenario of the specification, [initialize] with client
    capabilities [{ tools: {} }] negotiates tools only, and the following
    [resources/list] is answered with -32601. *)
Theorem capability_gate_rejects :
  (∀ (h : Js.Host) (request : JsonRpcRequest.t) (this : EnhancedHttpHandler.t)
     (method : string) (k : CapabilityKey),
     JsonRpcRequest.jsonrpc request = Some "2.0" →
     JsonRpcRequest.method request = Some method →
     Spec.requiredCapability method = Some k →
     evalState (SessionManager.hasCapability EnhancedHttpHandler.sessionId k)
       (EnhancedHttpHandler.sessionManager this) = false →
     ∃ message,
       EnhancedHttpHandler.routeRequest h request this
       = (Throw (RpcError (-32601) message), this)
       ∧ EnhancedHttpHandler.handleRequest h (Some request) this
         = ({| status := 404;
               body := JsonRpcResponse.mk (JsonRpcRequest.id request) None
                         (Some (JsonRpcResponse.mk_error (-32601) message)) |},
            EnhancedHttpHandler.mk (EnhancedHttpHandler.sessionManager this)
              (EnhancedHttpHandler.console this ++ [LogReceived method])))
  ∧ (∀ (this : EnhancedHttpHandler.t) (k : CapabilityKey),
       SessionManager.sessions (EnhancedHttpHandler.sessionManager this)
         !! EnhancedHttpHandler.sessionId = None →
       evalState (SessionManager.hasCapability EnhancedHttpHandler.sessionId k)
         (EnhancedHttpHandler.sessionManager this) = false)
  ∧ (∀ h : Js.Host,
       let initialized :=
         execState (EnhancedHttpHandler.handleRequest h (Some Scenario.initializeRequest))
           EnhancedHttpHandler.new in
       ManagedSession.negotiatedCapabilities
         <$> (SessionManager.sessions (EnhancedHttpHandler.sessionManager initialized)
                !! EnhancedHttpHandler.sessionId)
       = Some (NegotiatedCapabilities.mk true false false false false None)
       ∧ evalState
           (EnhancedHttpHandler.handleRequest h (Some Scenario.resourcesListRequest))
           initialized
         = {| status := 404;
              body := JsonRpcResponse.mk (Js.Num 2) None
                        (Some (JsonRpcResponse.mk_error (-32601)
                                 "Resources capability not negotiated for this session")) |}).
Proof.
  split_and!.
  - intros h request this method k Hrpc Hm Hk Hcap.
    destruct (routeRequest_gated h request method k Hm Hk) as (message & Hne & Hroute).
    exists message. split; [by apply Hroute|].
    unfold EnhancedHttpHandler.handleRequest.
    rewrite Hrpc, Hm, (gated_method_nonempty method k Hk).
    rewrite bool_decide_eq_true_2 by done. cbn [negb Js.showString default].
    unfold bind at 1, EnhancedHttpHandler.log at 1, modify.
    unfold bind at 1. rewrite Hroute by done.
    cbn [ret]. unfold ErrorCodes.METHOD_NOT_FOUND. rewrite Hne. reflexivity.
  - intros this k. apply no_session_no_capability.
  - intros h. vm_compute. done.
Qed.


(** ** Tool calls *)

Lemma routeRequest_tools_call (h : Js.Host) (request : JsonRpcRequest.t)
    (this : EnhancedHttpHandler.t) (params : Params.t) (result : ToolResult.t) :
  JsonRpcRequest.method request = Some "tools/call" →
  JsonRpcRequest.params request = Some params →
  evalState (SessionManager.hasCapability EnhancedHttpHandler.sessionId Tools)
    (EnhancedHttpHandler.sessionManager this) = true →
  EnhancedHttpHandler.callTool h (Params.name params)
    (default ToolArguments.empty (Params.arguments params)) = Some result →
  EnhancedHttpHandler.routeRequest h request this
  = (Return (CallToolResult
               [EnhancedHttpHandler.textContent (EnhancedHttpHandler.resultText result)]
               false),
     EnhancedHttpHandler.mk (EnhancedHttpHandler.sessionManager this)
       (EnhancedHttpHandler.console this ++ [LogCallingTool (Params.name params)])).
Proof.
  intros Hm Hp Hcap Hcall. unfold EnhancedHttpHandler.routeRequest.
  rewrite Hm, Hp. cbn [Js.strictEq String.eqb Ascii.eqb Bool.eqb andb].
  rewrite gate_passes by done. cbv zeta.
  unfold bind at 1, EnhancedHttpHandler.log, modify. by rewrite Hcall.
Qed.

(** C4 (what the code does at the claim's input). After [initialize] with
    the tools capability, the [tools/call] of [random_number] with
    [min = 10], [max = 5] and identifier [42] is answered with a success
    envelope that echoes the identifier and has no [error]; its single text
    item is the tool's error message, and the result is not flagged:
    [isError] is absent (by [routeRequest_tools_call] the router flags no
    result of a tool that ran, whatever its [success] field says). *)
Theorem failing_tool_result_not_flagged (h : Js.Host) :
  let initialized :=
    execState (EnhancedHttpHandler.handleRequest h (Some Scenario.initializeRequest))
      EnhancedHttpHandler.new in
  Tools.randomNumberTool h (Some 10) (Some 5) None
  = ToolResult.mk false None
      (Some "Minimum value cannot be greater than maximum value")
  ∧ evalState (EnhancedHttpHandler.handleRequest h (Some Scenario.randomNumberRequest))
      initialized
    = {| status := 200;
         body := JsonRpcResponse.mk (Js.Num 42)
                   (Some (CallToolResult
                            [ {| tc_type := "text";
                                 tc_text := "Minimum value cannot be greater than maximum value" |} ]
                            false))
                   None |}.
Proof. intros initialized. subst initialized. split; vm_compute; reflexivity. Qed.

(** ** Removal of a streaming session *)

Lemma closes_app (id : string) (l1 l2 : list SSEEffect) :
  Spec.closes id (l1 ++ l2) = (Spec.closes id l1 + Spec.closes id l2)%nat.
Proof.
  induction l1 as [|e l1 IH]; [done|].
  destruct e; simpl; rewrite IH; lia.
Qed.

Lemma sse_removeSession_absent (id : string) (this : SSETransportManager.t) :
  SSETransportManager.sessions this !! id = None →
  SSETransportManager.removeSession id this = (tt, this).
Proof.
  intros Hs. unfold SSETransportManager.removeSession, bind, get. by rewrite Hs.
Qed.

Lemma sse_removeSession_present (id : string) (this : SSETransportManager.t)
    (session : SSESession.t) :
  SSETransportManager.sessions this !! id = Some session →
  SSETransportManager.removeSession id this
  = (tt,
     SSETransportManager.mk (delete id (SSETransportManager.sessions this))
       (SSETransportManager.cleanupInterval this)
       (SSETransportManager.effects this
          ++ TransportClosed (SSEServerTransport.sessionId (SSESession.transport session))
          :: match SSEServerTransport.close (SSESession.transport session) with
             | Some error => [CloseErrorLogged id error]
             | None => []
             end)).
Proof.
  intros Hs. unfold SSETransportManager.removeSession, bind, get. rewrite Hs.
  unfold SSETransportManager.effect, modify, SSETransportManager.set_sessions; simpl.
  destruct (SSEServerTransport.close (SSESession.transport session)); simpl;
    by rewrite <- ?app_assoc.
Qed.

(** C7. Removing a streaming session twice closes its transport once: the
    first call closes the transport bound to the session and deletes the
    session, whether or not the close is rejected (a rejection only reaches
    the console); the second call, and any further one, finds no session and
    changes nothing, so no second close happens and the session stays
    absent. *)
Theorem sse_removeSession_idempotent (this : SSETransportManager.t) (id : string)
    (session : SSESession.t) :
  SSETransportManager.sessions this !! id = Some session →
  let bound := SSEServerTransport.sessionId (SSESession.transport session) in
  let once := execState (SSETransportManager.removeSession id) this in
  let twice := execState (SSETransportManager.removeSession id) once in
  SSETransportManager.sessions once !! id = None
  ∧ twice = once
  ∧ (∀ n : nat, Nat.iter n (execState (SSETransportManager.removeSession id)) once = once)
  ∧ Spec.closes bound (SSETransportManager.effects twice)
    = S (Spec.closes bound (SSETransportManager.effects this))
  ∧ (∀ other : string, other ≠ bound →
       Spec.closes other (SSETransportManager.effects twice)
       = Spec.closes other (SSETransportManager.effects this)).
Proof.
  intros Hs bound once twice.
  assert (Honce : SSETransportManager.sessions once !! id = None).
  { subst once. unfold execState. rewrite (sse_removeSession_present _ _ _ Hs); simpl.
    apply lookup_delete_eq. }
  assert (Htwice : twice = once).
  { subst twice. unfold execState at 1. by rewrite sse_removeSession_absent. }
  assert (Hcloses : ∀ t, Spec.closes t (SSETransportManager.effects once)
            = (Spec.closes t (SSETransportManager.effects this)
               + if String.eqb bound t then 1 else 0)%nat).
  { intros t. subst once. unfold execState.
    rewrite (sse_removeSession_present _ _ _ Hs); simpl.
    rewrite closes_app; simpl. fold bound.
    destruct (SSEServerTransport.close (SSESession.transport session)); simpl; lia. }
  split_and!; [done|done| | |].
  - induction n as [|n IH]; simpl; [done|].
    rewrite IH. unfold execState. by rewrite sse_removeSession_absent.
  - rewrite Htwice, Hcloses, String.eqb_refl. lia.
  - intros other Hne. rewrite Htwice, Hcloses.
    destruct (String.eqb_spec bound other); [congruence|lia].
Qed.

(** ** Messages of the streaming transport *)

Lemma handleMessage_absent (id : string) (res : Res) (body : option JsonRpcRequest.t)
    (now : Z) (this : SSETransportManager.t) :
  SSETransportManager.sessions this !! id = None →
  SSETransportManager.handleMessage id res body now this
  = (Some (JsonReply 404
       {| eb_code := -32000; eb_message := "Session not found: " ++ id;
          eb_id := Js.Null |}),
     this).
Proof.
  intros Hs. unfold SSETransportManager.handleMessage, bind, get. by rewrite Hs.
Qed.

Lemma handleMessage_present (id : string) (body : option JsonRpcRequest.t)
    (now : Z) (this : SSETransportManager.t) (session : SSESession.t) :
  SSETransportManager.sessions this !! id = Some session →
  let outcome := SSEServerTransport.handlePostMessage (SSESession.transport session) body in
  let after := SSETransportManager.handleMessage id None body now this in
  SSETransportManager.sessions after.2
    = <[id := SSESession.set_lastActivity now session]> (SSETransportManager.sessions this)
  ∧ after.1
    = match SSEServerTransport.failure outcome, SSEServerTransport.written outcome with
      | None, written => written
      | Some _, Some reply => Some reply
      | Some _, None =>
          Some (JsonReply 500
            {| eb_code := -32603; eb_message := "Internal server error";
               eb_id := SSETransportManager.bodyId body |})
      end.
Proof.
  intros Hs outcome after. subst after outcome.
  unfold SSETransportManager.handleMessage, bind, get. rewrite Hs.
  unfold modify, SSETransportManager.effect, modify; simpl.
  destruct (SSEServerTransport.handlePostMessage (SSESession.transport session) body)
    as [[reply|] [error|]]; simpl; done.
Qed.

(** C8 (as the code has it). A [POST /messages] never throws.  Without a
    session identifier it is answered with the InvalidRequest code -32600
    and with an unknown one with the SessionNotFound code -32000, and in both
    cases the manager is left as it was.  For a known session the call stamps
    [lastActivity] and leaves the other sessions alone; a failure of the
    inbound handler is answered with the structured error -32603 when the
    handler had not written a response yet, and is only logged when it had. *)
Theorem postMessages_outcomes (manager : SSETransportManager.t)
    (body : option JsonRpcRequest.t) (now : Z) :
  (∀ (sseManager : option SSETransportManager.t) (sessionId : option string),
     Js.falsyString sessionId = true →
     Index.postMessages sessionId body now sseManager
     = (Some (JsonReply 400
          {| eb_code := -32600; eb_message := "Session ID is required";
             eb_id := Js.Null |}),
        sseManager))
  ∧ (∀ id : string,
       id ≠ "" →
       SSETransportManager.sessions manager !! id = None →
       Index.postMessages (Some id) body now (Some manager)
       = (Some (JsonReply 404
            {| eb_code := -32000; eb_message := "Session not found: " ++ id;
               eb_id := Js.Null |}),
          Some manager))
  ∧ (∀ (id : string) (session : SSESession.t),
       id ≠ "" →
       SSETransportManager.sessions manager !! id = Some session →
       let outcome :=
         SSEServerTransport.handlePostMessage (SSESession.transport session) body in
       ∃ (res : Res) (manager' : SSETransportManager.t),
         Index.postMessages (Some id) body now (Some manager) = (res, Some manager')
         ∧ SSETransportManager.sessions manager'
           = <[id := SSESession.set_lastActivity now session]>
               (SSETransportManager.sessions manager)
         ∧ res
           = match SSEServerTransport.failure outcome,
                   SSEServerTransport.written outcome with
             | None, written => written
             | Some _, Some reply => Some reply
             | Some _, None =>
                 Some (JsonReply 500
                   {| eb_code := -32603; eb_message := "Internal server error";
                      eb_id := SSETransportManager.bodyId body |})
             end).
Proof.
  assert (Hne : ∀ id : string, id ≠ "" → Js.falsyString (Some id) = false).
  { intros id Hid; simpl. by destruct (String.eqb_spec id ""). }
  split_and!.
  - intros sseManager sessionId Hmissing. unfold Index.postMessages. by rewrite Hmissing.
  - intros id Hid Hs. unfold Index.postMessages. rewrite (Hne id Hid); simpl.
    by rewrite handleMessage_absent.
  - intros id session Hid Hs outcome.
    destruct (handleMessage_present id body now manager session Hs) as [Hsessions Hres].
    unfold Index.postMessages. rewrite (Hne id Hid); simpl.
    destruct (SSETransportManager.handleMessage id None body now manager)
      as [res manager'] eqn:Hcall.
    exists res, manager'. by split_and!.
Qed.

(** C8, as stated, fails on a request without a session identifier: the
    answer carries -32600, not the SessionNotFound code. *)
Lemma missing_session_id_is_invalid_request :
  ∃ reply : ErrorBody,
    evalState (Index.postMessages None None 0) (Some SSETransportManager.new)
    = Some (JsonReply 400 reply)
    ∧ eb_code reply = -32600
    ∧ eb_code reply ≠ SSETransportManager.SESSION_NOT_FOUND.
Proof.
  eexists. split; [reflexivity|]. split; [reflexivity|]. done.
Qed.

(** ** Placeholder substitution *)

Section Strings.

Lemma app_cons (c : ascii) (s t : string) : String c s ++ t = String c (s ++ t).
Proof. reflexivity. Qed.


Lemma string_app_length (s t : string) :
  String.length (s ++ t) = (String.length s + String.length t)%nat.
Proof. induction s as [|c s IH]; [done|]. rewrite app_cons; simpl. by rewrite IH. Qed.

Lemma prefix_cons (c d : ascii) (p s : string) :
  String.prefix (String c p) (String d s) = true ↔ c = d ∧ String.prefix p s = true.
Proof.
  simpl. destruct (ascii_dec c d); [|split; [done|by intros [? ?]]].
  by split; [|intros [? ?]].
Qed.



Lemma prefix_nil_r (p : string) : String.prefix p "" = true → p = "".
Proof. by destruct p. Qed.

Lemma prefix_app (p r : string) : String.prefix p (p ++ r) = true.
Proof.
  induction p as [|c p IH]; [by destruct r|].
  rewrite app_cons. by apply prefix_cons.
Qed.

Lemma prefix_slice (p s : string) :
  String.prefix p s = true → s = p ++ Js.slice (String.length p) s.
Proof.
  revert s. induction p as [|c p IH]; intros s Hp; [done|].
  destruct s as [|d s]; [done|].
  apply prefix_cons in Hp as [<- Hp]. rewrite app_cons; simpl. f_equal. by apply IH.
Qed.

Lemma find_unfold (pat s : string) :
  Js.find pat s =
    if String.prefix pat s
    then Some ("", Js.slice (String.length pat) s)
    else match s with
         | EmptyString => None
         | String c s' =>
             match Js.find pat s' with
             | Some (before, after) => Some (String c before, after)
             | None => None
             end
         end.
Proof. by destruct s. Qed.

Lemma find_Some (pat s before after : string) :
  Js.find pat s = Some (before, after) → s = before ++ pat ++ after.
Proof.
  revert before. induction s as [|c s IH]; intros before; rewrite find_unfold.
  - destruct (String.prefix pat "") eqn:Hp; [|done].
    intros [= <- <-]. by apply prefix_slice in Hp.
  - destruct (String.prefix pat (String c s)) eqn:Hp.
    + intros [= <- <-]. by apply prefix_slice in Hp.
    + destruct (Js.find pat s) as [[b a]|]; [|done].
      intros [= <- <-]. rewrite app_cons. f_equal. by apply IH.
Qed.

Lemma find_first (pat s before after : string) :
  Js.find pat s = Some (before, after) →
  ∀ x y, s = x ++ pat ++ y → (String.length before ≤ String.length x)%nat.
Proof.
  revert before. induction s as [|c s IH]; intros before; rewrite find_unfold.
  - destruct (String.prefix pat ""); [|done]. intros [= <- <-] x y _. simpl; lia.
  - destruct (String.prefix pat (String c s)) eqn:Hp.
    + intros [= <- <-] x y _. simpl; lia.
    + destruct (Js.find pat s) as [[b a]|] eqn:Hf; [|done].
      intros [= <- <-] x y Hs. destruct x as [|d x].
      * change ("" ++ pat ++ y) with (pat ++ y) in Hs.
        rewrite Hs, prefix_app in Hp. done.
      * rewrite app_cons in Hs. injection Hs as -> ->. simpl.
        specialize (IH b eq_refl x y eq_refl). lia.
Qed.

Lemma occursb_unfold (pat s : string) :
  Spec.occursb pat s =
    String.prefix pat s
    || match s with
       | EmptyString => false
       | String _ s' => Spec.occursb pat s'
       end.
Proof.
  unfold Spec.occursb. rewrite find_unfold.
  destruct (String.prefix pat s); [done|]. simpl.
  destruct s as [|c s]; [done|]. by destruct (Js.find pat s) as [[? ?]|].
Qed.

Lemma occursb_occurs (pat s : string) :
  Spec.occursb pat s = true ↔ Spec.occurs pat s.
Proof.
  split.
  - unfold Spec.occursb. destruct (Js.find pat s) as [[b a]|] eqn:Hf; [|done].
    intros _. exists b, a. by apply find_Some.
  - intros (x & y & ->). induction x as [|c x IH]; rewrite occursb_unfold.
    + change ("" ++ pat ++ y) with (pat ++ y). by rewrite prefix_app.
    + rewrite app_cons, IH. apply orb_true_r.
Qed.




End Strings.

Section Placeholders.












End Placeholders.




(** C8, second half: when the handler fails after it has answered, the
    client gets the handler's answer and the failure reaches the console
    only. *)
Example handler_failure_after_reply_only_logged :
  Index.postMessages (Some "s3") None 5000 (Some Scenario.lateFailingManager)
  = (Some (TransportReply 202 "Accepted"),
     Some (SSETransportManager.mk
             {[ "s3" := SSESession.mk "s3" Scenario.lateFailingTransport ∅ 1000 5000 ]}
             true [HandlerErrorLogged "s3" "boom"])).
Proof.
  unfold Index.postMessages; simpl.
  unfold SSETransportManager.handleMessage, bind, get, Scenario.lateFailingManager.
  cbn [SSETransportManager.sessions]. rewrite lookup_singleton_eq.
  unfold modify, SSETransportManager.effect, modify, SSETransportManager.set_sessions; simpl.
  by rewrite insert_singleton_eq.
Qed.

(** ** Sanity checks of the embedding on concrete inputs *)

Example negotiate_tools_only :
  SessionManager.negotiateCapabilities SessionManager.defaultServerCapabilities
    Scenario.toolsOnly
  = NegotiatedCapabilities.mk true false false false false None.
Proof. reflexivity. Qed.

Example negotiate_sampling_without_server :
  NegotiatedCapabilities.sampling
    (SessionManager.negotiateCapabilities Capabilities.empty
       (Capabilities.mk Js.Undefined Js.Undefined Js.Undefined Js.Undefined Js.Obj None))
  = true.
Proof. reflexivity. Qed.

Example negotiate_experimental_per_key :
  let server :=
    Capabilities.mk Js.Obj Js.Obj Js.Obj Js.Obj Js.Undefined
      (Some {[ "a" := Js.Obj; "b" := Js.Obj ]}) in
  let client :=
    Capabilities.mk Js.Obj Js.Undefined Js.Undefined Js.Undefined Js.Undefined
      (Some {[ "b" := Js.Obj; "c" := Js.Obj; "a" := Js.Bool false ]}) in
  NegotiatedCapabilities.experimental (SessionManager.negotiateCapabilities server client)
  = Some {[ "b" := true ]}.
Proof. vm_compute. reflexivity. Qed.

Example replace_first_occurrence :
  Js.replace "a-b-a-b" "b" "X" = "a-X-a-b".
Proof. reflexivity. Qed.

Example replace_dollar_patterns :
  Js.replace "one two three" "two" "[$&|$`|$'|$$|$1]" = "one [two|one | three|$|$1] three".
Proof. reflexivity. Qed.

Example substitution_is_ordered :
  EnhancedHttpHandler.processTemplate "{{a}}" (Some [("a", "{{b}}"); ("b", "x")]) = "x"
  ∧ EnhancedHttpHandler.processTemplate "{{a}}" (Some [("b", "x"); ("a", "{{b}}")]) = "{{b}}".
Proof. split; reflexivity. Qed.

Example echo_without_message :
  Tools.echoTool None = ToolResult.mk false None (Some "Message is required")
  ∧ Tools.echoTool (Some "hi") = ToolResult.mk true (Some "Echo: hi") None.
Proof. split; reflexivity. Qed.

Example calculator_rejects_letters (h : Js.Host) :
  Tools.calculatorTool h (Some "2 + x")
  = ToolResult.mk false None (Some "Expression contains invalid characters").
Proof. reflexivity. Qed.

Example string_tool_words :
  Tools.stringTool (Some "  a  bc d ") (Some "words")
  = ToolResult.mk true (Some "Word count: 3") None
  ∧ Tools.stringTool (Some "abc") (Some "reverse") = ToolResult.mk true (Some "cba") None
  ∧ Tools.stringTool (Some "abc") None
    = ToolResult.mk false None (Some "Unknown operation: undefined").
Proof. split_and!; vm_compute; reflexivity. Qed.

Example unknown_tool_is_flagged (h : Js.Host) :
  evalState
    (EnhancedHttpHandler.routeRequest h
       (JsonRpcRequest.mk (Some "2.0") (Js.Num 9) (Some "tools/call")
          (Some (Params.mk None None None (Some "nope") None None None))))
    Scenario.negotiatedHandler
  = Return (CallToolResult
      [ {| tc_type := "text";
           tc_text := "Error executing tool nope: Error: Unknown tool: nope" |} ]
      true).
Proof. vm_compute. reflexivity. Qed.

Example lookup_finds_inherited_members :
  Js.get ∅ "constructor" = Js.Obj
  ∧ Js.get ∅ "streaming" = Js.Undefined
  ∧ Js.get {[ "constructor" := Js.Bool false ]} "constructor" = Js.Bool false
  ∧ Js.own ∅ "constructor" = Js.Undefined
  ∧ Js.set (∅ : gmap string bool) "__proto__" true = ∅.
Proof. split_and!; reflexivity. Qed.

Example inherited_prompt_name_is_answered :
  evalState
    (EnhancedHttpHandler.handleRequest Scenario.idleHost
       (Some (JsonRpcRequest.mk (Some "2.0") (Js.Num 9) (Some "prompts/get")
                (Some (Params.mk None None None (Some "constructor") None None None)))))
    Scenario.negotiatedHandler
  = {| status := 200;
       body := JsonRpcResponse.mk (Js.Num 9)
                 (Some (GetPromptResult
                          [ {| pm_role := "user";
                               pm_content := {| pc_type := "text"; pc_text := None |} |} ]))
                 None |}
  ∧ evalState
      (EnhancedHttpHandler.handleRequest Scenario.idleHost
         (Some (JsonRpcRequest.mk (Some "2.0") (Js.Num 9) (Some "prompts/get")
                  (Some (Params.mk None None None (Some "constructor") None
                           (Some [("question", "Why?")]) None)))))
      Scenario.negotiatedHandler
    = {| status := 400;
         body := JsonRpcResponse.mk (Js.Num 9) None
                   (Some (JsonRpcResponse.mk_error (-32603)
                            "Cannot read properties of undefined (reading 'replace')")) |}.
Proof. split; vm_compute; reflexivity. Qed.

Example timestamp_of_a_number_format :
  Tools.timestampTool Scenario.idleHost (Js.Num 5)
  = ToolResult.mk false None
      (Some "Timestamp tool error: TypeError: format?.toLowerCase is not a function")
  ∧ Tools.timestampTool Scenario.idleHost Js.Null
    = ToolResult.mk true (Some "1970-01-01T00:00:00.000Z") None.
Proof. split; vm_compute; reflexivity. Qed.

(** * The theorems at concrete inputs *)

Lemma createSession_replaces_witness :
  let second :=
    SessionManager.createSession "s1" None None Scenario.fullClient 7 8
      (execState (SessionManager.createSession "s1" None None Scenario.toolsOnly 1 2)
         Scenario.store) in
  ManagedSession.negotiatedCapabilities second.1
  = NegotiatedCapabilities.mk true true true true false None
  ∧ ManagedSession.createdAt second.1 = 7
  ∧ ManagedSession.lastActivity second.1 = 8
  ∧ SessionManager.sessions second.2 !! "s1" = Some second.1
  ∧ SessionManager.sessions second.2 !! "s2" = SessionManager.sessions Scenario.store !! "s2".
Proof.
  pose proof (createSession_replaces Scenario.store "s1" None None None None
                Scenario.toolsOnly Scenario.fullClient 1 2 7 8)
    as (Hret & Hstored & _ & Hother).
  cbv zeta in *. rewrite Hret, Hstored.
  split_and!; [reflexivity.. | apply Hother; discriminate].
Defined.

Lemma hasCapability_matches_rule_table_witness :
  SessionManager.sessions (SessionManager.new None) !! "nobody" = None
  ∧ evalState (SessionManager.hasCapability "nobody" Tools) (SessionManager.new None)
    = false.
Proof.
  assert (H : SessionManager.sessions (SessionManager.new None) !! "nobody" = None)
    by reflexivity.
  split; [exact H|].
  exact (proj2 (hasCapability_matches_rule_table (SessionManager.new None) "nobody"
                  None None Capabilities.empty 0 0 Tools) H).
Defined.

Lemma capability_gate_rejects_witness :
  ∃ message : string,
    EnhancedHttpHandler.routeRequest Scenario.idleHost Scenario.toolsListRequest
      EnhancedHttpHandler.new
    = (Throw (RpcError (-32601) message), EnhancedHttpHandler.new)
    ∧ EnhancedHttpHandler.handleRequest Scenario.idleHost (Some Scenario.toolsListRequest)
        EnhancedHttpHandler.new
      = ({| status := 404;
            body := JsonRpcResponse.mk (Js.Num 7) None
                      (Some (JsonRpcResponse.mk_error (-32601) message)) |},
         EnhancedHttpHandler.mk
           (EnhancedHttpHandler.sessionManager EnhancedHttpHandler.new)
           [LogReceived "tools/list"]).
Proof.
  apply (proj1 capability_gate_rejects Scenario.idleHost Scenario.toolsListRequest
           EnhancedHttpHandler.new "tools/list" Tools).
  - reflexivity.
  - reflexivity.
  - vm_compute. reflexivity.
  - vm_compute. reflexivity.
Defined.

Lemma sse_removeSession_idempotent_witness :
  let once := execState (SSETransportManager.removeSession "s1") Scenario.streamingManager in
  let twice := execState (SSETransportManager.removeSession "s1") once in
  SSETransportManager.sessions once !! "s1" = None
  ∧ twice = once
  ∧ (∀ n : nat, Nat.iter n (execState (SSETransportManager.removeSession "s1")) once = once)
  ∧ Spec.closes "s1" (SSETransportManager.effects twice) = 1%nat
  ∧ (∀ other : string, other ≠ "s1" →
       Spec.closes other (SSETransportManager.effects twice) = 0%nat).
Proof.
  apply (sse_removeSession_idempotent Scenario.streamingManager "s1"
           Scenario.streamingSession).
  vm_compute. reflexivity.
Defined.

Lemma postMessages_outcomes_witness :
  Index.postMessages None None 5000 (Some Scenario.streamingManager)
  = (Some (JsonReply 400
       {| eb_code := -32600; eb_message := "Session ID is required";
          eb_id := Js.Null |}),
     Some Scenario.streamingManager)
  ∧ Index.postMessages (Some "s2") None 5000 (Some Scenario.streamingManager)
    = (Some (JsonReply 404
         {| eb_code := -32000; eb_message := "Session not found: s2";
            eb_id := Js.Null |}),
       Some Scenario.streamingManager)
  ∧ ∃ (res : Res) (manager' : SSETransportManager.t),
      Index.postMessages (Some "s1") None 5000 (Some Scenario.streamingManager)
      = (res, Some manager')
      ∧ SSETransportManager.sessions manager'
        = <["s1" := SSESession.set_lastActivity 5000 Scenario.streamingSession]>
            (SSETransportManager.sessions Scenario.streamingManager)
      ∧ res = Some (JsonReply 500
                {| eb_code := -32603; eb_message := "Internal server error";
                   eb_id := Js.Null |}).
Proof.
  pose proof (postMessages_outcomes Scenario.streamingManager None 5000)
    as (Hmissing & Hunknown & Hknown).
  split_and!.
  - apply Hmissing. reflexivity.
  - apply Hunknown; [discriminate | vm_compute; reflexivity].
  - apply (Hknown "s1" Scenario.streamingSession); [discriminate | vm_compute; reflexivity].
Defined.


Lemma hasCapability_leaves_store_witness :
  SessionManager.sessions Scenario.store !! "s1" = Some Scenario.storedSession
  ∧ execState (SessionManager.hasCapability "s1" Tools) Scenario.store = Scenario.store
  ∧ SessionManager.sessions (execState (SessionManager.getSession "s1" 2000) Scenario.store)
      !! "s1"
    = Some (ManagedSession.set_lastActivity 2000 Scenario.storedSession).
Proof.
  assert (H : SessionManager.sessions Scenario.store !! "s1" = Some Scenario.storedSession)
    by (vm_compute; reflexivity).
  pose proof (hasCapability_leaves_store Scenario.store "s1" Tools) as (Hpure & _ & Htouch).
  split_and!; [exact H | exact Hpure | exact (Htouch 2000 Scenario.storedSession H)].
Defined.

(** * Further properties of the modelled code *)

(** ** The envelope of the HTTP handler *)

Lemma handleRequest_rejects_malformed_aux (h : Js.Host) (this : EnhancedHttpHandler.t) :
  (∀ request : JsonRpcRequest.t,
     JsonRpcRequest.jsonrpc request ≠ Some "2.0" →
     EnhancedHttpHandler.handleRequest h (Some request) this
     = (EnhancedHttpHandler.sendError (JsonRpcRequest.id request) (-32600)
          "Invalid JSON-RPC version", this))
  ∧ (∀ request : JsonRpcRequest.t,
       JsonRpcRequest.jsonrpc request = Some "2.0" →
       Js.falsyString (JsonRpcRequest.method request) = true →
       EnhancedHttpHandler.handleRequest h (Some request) this
       = (EnhancedHttpHandler.sendError (JsonRpcRequest.id request) (-32600)
            "Method is required", this)).
Proof.
  split.
  - intros request Hrpc. unfold EnhancedHttpHandler.handleRequest.
    by rewrite bool_decide_eq_false_2.
  - intros request Hrpc Hm. unfold EnhancedHttpHandler.handleRequest.
    rewrite bool_decide_eq_true_2 by done. by rewrite Hm.
Qed.

(** X1. A request whose [jsonrpc] member is not ['2.0'] is rejected with
    -32600 "Invalid JSON-RPC version", one without a method with -32600
    "Method is required", both with status 400, the request's identifier
    echoed and the handler left untouched; a request without a body is
    answered with -32700 and a null identifier. *)
Theorem handleRequest_rejects_malformed (h : Js.Host) (this : EnhancedHttpHandler.t) :
  (∀ request : JsonRpcRequest.t,
     JsonRpcRequest.jsonrpc request ≠ Some "2.0" →
     EnhancedHttpHandler.handleRequest h (Some request) this
     = ({| status := 400;
           body := JsonRpcResponse.mk (JsonRpcRequest.id request) None
                     (Some (JsonRpcResponse.mk_error (-32600) "Invalid JSON-RPC version")) |},
        this))
  ∧ (∀ request : JsonRpcRequest.t,
       JsonRpcRequest.jsonrpc request = Some "2.0" →
       Js.falsyString (JsonRpcRequest.method request) = true →
       EnhancedHttpHandler.handleRequest h (Some request) this
       = ({| status := 400;
             body := JsonRpcResponse.mk (JsonRpcRequest.id request) None
                       (Some (JsonRpcResponse.mk_error (-32600) "Method is required")) |},
          this))
  ∧ evalState (EnhancedHttpHandler.handleRequest h None) this
    = {| status := 400;
         body := JsonRpcResponse.mk Js.Null None
                   (Some (JsonRpcResponse.mk_error (-32700) "Failed to parse request")) |}
  ∧ EnhancedHttpHandler.sessionManager
      (execState (EnhancedHttpHandler.handleRequest h None) this)
    = EnhancedHttpHandler.sessionManager this.
Proof.
  destruct (handleRequest_rejects_malformed_aux h this) as [Hversion Hmethod].
  split_and!.
  - intros request Hrpc. by rewrite Hversion.
  - intros request Hrpc Hm. by rewrite Hmethod.
  - reflexivity.
  - reflexivity.
Qed.

Lemma handleRequest_rejects_malformed_witness :
  evalState
    (EnhancedHttpHandler.handleRequest Scenario.idleHost
       (Some (JsonRpcRequest.mk (Some "1.0") (Js.Str "a") (Some "ping") None)))
    EnhancedHttpHandler.new
  = {| status := 400;
       body := JsonRpcResponse.mk (Js.Str "a") None
                 (Some (JsonRpcResponse.mk_error (-32600) "Invalid JSON-RPC version")) |}
  ∧ evalState
      (EnhancedHttpHandler.handleRequest Scenario.idleHost
         (Some (JsonRpcRequest.mk (Some "2.0") (Js.Num 1) (Some "") None)))
      EnhancedHttpHandler.new
    = {| status := 400;
         body := JsonRpcResponse.mk (Js.Num 1) None
                   (Some (JsonRpcResponse.mk_error (-32600) "Method is required")) |}.
Proof.
  pose proof (handleRequest_rejects_malformed Scenario.idleHost EnhancedHttpHandler.new)
    as (Hversion & Hmethod & _).
  split.
  - unfold evalState. rewrite Hversion; [reflexivity | discriminate].
  - unfold evalState. rewrite Hmethod; reflexivity.
Defined.

Lemma handleRequest_routed (h : Js.Host) (request : JsonRpcRequest.t)
    (this : EnhancedHttpHandler.t) :
  JsonRpcRequest.jsonrpc request = Some "2.0" →
  Js.falsyString (JsonRpcRequest.method request) = false →
  EnhancedHttpHandler.handleRequest h (Some request) this
  = (Laws.answerOf (JsonRpcRequest.id request)
       (evalState (EnhancedHttpHandler.routeRequest h request)
          (Laws.received (JsonRpcRequest.method request) this)),
     execState (EnhancedHttpHandler.routeRequest h request)
       (Laws.received (JsonRpcRequest.method request) this)).
Proof.
  intros Hrpc Hm. unfold EnhancedHttpHandler.handleRequest, evalState, execState.
  rewrite bool_decide_eq_true_2, Hm by done. cbn [negb].
  unfold bind at 1, EnhancedHttpHandler.log at 1, modify. unfold bind at 1.
  fold (Laws.received (JsonRpcRequest.method request) this).
  destruct (EnhancedHttpHandler.routeRequest h request _)
    as [[result|[code message|message]] this']; cbn [ret fst snd Laws.answerOf];
    try reflexivity.
  by destruct (negb (code =? 0)%Z && negb (String.eqb message "")).
Qed.


(** ** Routing *)




Lemma routeRequest_initialize (h : Js.Host) (request : JsonRpcRequest.t)
    (this : EnhancedHttpHandler.t) (params : Params.t) :
  JsonRpcRequest.method request = Some "initialize" →
  JsonRpcRequest.params request = Some params →
  let created :=
    SessionManager.createSession EnhancedHttpHandler.sessionId
      (Params.clientInfo params) (Params.protocolVersion params)
      (default Capabilities.empty (Params.capabilities params))
      (Js.now h 0) (Js.now h 1) (EnhancedHttpHandler.sessionManager this) in
  EnhancedHttpHandler.routeRequest h request this
  = (Return (InitializeResult "2025-06-18"
               (evalState
                  (SessionManager.getSessionCapabilities EnhancedHttpHandler.sessionId)
                  created.2)
               {| ci_name := "Enhanced MCP Server"; ci_version := "1.0.0" |}),
     EnhancedHttpHandler.mk created.2
       (EnhancedHttpHandler.console this
          ++ [LogInitialized (ManagedSession.negotiatedCapabilities created.1)])).
Proof.
  intros Hm Hp created. subst created. unfold EnhancedHttpHandler.routeRequest.
  rewrite Hm, Hp. cbn [Js.strictEq String.eqb Ascii.eqb Bool.eqb andb].
  rewrite createSession_exec. cbv zeta.
  unfold bind at 1, EnhancedHttpHandler.onSessionManager at 1.
  rewrite createSession_exec. cbv zeta. cbn [EnhancedHttpHandler.sessionManager].
  unfold bind at 1, EnhancedHttpHandler.onSessionManager at 1.
  cbn [EnhancedHttpHandler.sessionManager].
  unfold evalState.
  destruct (SessionManager.getSessionCapabilities _ _) as [caps sm] eqn:Hcaps.
  assert (sm = SessionManager.mk
            (<[EnhancedHttpHandler.sessionId :=
                 ManagedSession.mk EnhancedHttpHandler.sessionId (Params.clientInfo params)
                   (Params.protocolVersion params)
                   (default Capabilities.empty (Params.capabilities params))
                   (SessionManager.negotiateCapabilities
                      (SessionManager.serverCapabilities
                         (EnhancedHttpHandler.sessionManager this))
                      (default Capabilities.empty (Params.capabilities params)))
                   ∅ (Js.now h 0) (Js.now h 1)]>
               (SessionManager.sessions (EnhancedHttpHandler.sessionManager this)))
            (SessionManager.serverCapabilities (EnhancedHttpHandler.sessionManager this)))
    as ->.
  { unfold SessionManager.getSessionCapabilities, bind, get in Hcaps. simpl in Hcaps.
    rewrite lookup_insert_eq in Hcaps. by injection Hcaps as _ <-. }
  reflexivity.
Qed.

Lemma hasCapability_created (this : SessionManager.t) (id : string)
    (ci : option ClientInfo) (pv : option string) (caps : Capabilities.t) (tc ta : Z)
    (k : CapabilityKey) :
  evalState (SessionManager.hasCapability id k)
    (SessionManager.createSession id ci pv caps tc ta this).2
  = Spec.ruleTable (SessionManager.serverCapabilities this) caps k.
Proof.
  unfold evalState. rewrite hasCapability_exec, createSession_exec; simpl.
  rewrite lookup_insert_eq; simpl. apply negotiatedFlag_ruleTable.
Qed.

Lemma gate_decides (this : EnhancedHttpHandler.t) (k : CapabilityKey) (message : string)
    (rest : State EnhancedHttpHandler.t (Completion Result)) :
  EnhancedHttpHandler.gate k message rest this
  = if evalState (SessionManager.hasCapability EnhancedHttpHandler.sessionId k)
         (EnhancedHttpHandler.sessionManager this)
    then rest this
    else (Throw (RpcError ErrorCodes.METHOD_NOT_FOUND message), this).
Proof.
  destruct (evalState _ _) eqn:Hcap; [by apply gate_passes | by apply gate_rejects].
Qed.

(** X4. What [initialize] negotiates decides the later listings: after an
    [initialize] with client capabilities [c], [tools/list], [resources/list]
    and [prompts/list] return their lists exactly when the rule table grants
    the capability to [c], and are refused with -32601 otherwise. *)
Theorem initialize_decides_listing (h h' : Js.Host) (request listing : JsonRpcRequest.t)
    (this : EnhancedHttpHandler.t) (params : Params.t) :
  JsonRpcRequest.method request = Some "initialize" →
  JsonRpcRequest.params request = Some params →
  let server := SessionManager.serverCapabilities (EnhancedHttpHandler.sessionManager this) in
  let client := default Capabilities.empty (Params.capabilities params) in
  let after := execState (EnhancedHttpHandler.routeRequest h request) this in
  (JsonRpcRequest.method listing = Some "tools/list" →
   evalState (EnhancedHttpHandler.routeRequest h' listing) after
   = if Spec.ruleTable server client Tools
     then Return (ListToolsResult Tools.getToolDefinitions)
     else Throw (RpcError (-32601) "Tools capability not negotiated for this session"))
  ∧ (JsonRpcRequest.method listing = Some "resources/list" →
     evalState (EnhancedHttpHandler.routeRequest h' listing) after
     = if Spec.ruleTable server client Resources
       then Return (ListResourcesResult EnhancedHttpHandler.resourceList)
       else Throw (RpcError (-32601) "Resources capability not negotiated for this session"))
  ∧ (JsonRpcRequest.method listing = Some "prompts/list" →
     evalState (EnhancedHttpHandler.routeRequest h' listing) after
     = if Spec.ruleTable server client Prompts
       then Return (ListPromptsResult EnhancedHttpHandler.promptList)
       else Throw (RpcError (-32601) "Prompts capability not negotiated for this session")).
Proof.
  intros Hm Hp server client after. subst after. unfold execState.
  rewrite (routeRequest_initialize h request this params Hm Hp). cbv zeta. cbn [snd].
  split_and!; intros Hl; unfold evalState at 1, EnhancedHttpHandler.routeRequest;
    rewrite Hl; cbn [Js.strictEq String.eqb Ascii.eqb Bool.eqb andb];
    rewrite gate_decides; cbn [EnhancedHttpHandler.sessionManager];
    rewrite hasCapability_created; fold server client;
    by destruct (Spec.ruleTable server client _).
Qed.

Lemma initialize_decides_listing_witness :
  let after :=
    execState
      (EnhancedHttpHandler.routeRequest Scenario.idleHost Scenario.initializeRequest)
      EnhancedHttpHandler.new in
  evalState (EnhancedHttpHandler.routeRequest Scenario.idleHost Scenario.toolsListRequest)
    after
  = Return (ListToolsResult Tools.getToolDefinitions)
  ∧ evalState
      (EnhancedHttpHandler.routeRequest Scenario.idleHost Scenario.resourcesListRequest)
      after
    = Throw (RpcError (-32601) "Resources capability not negotiated for this session").
Proof.
  intros after. subst after.
  destruct (initialize_decides_listing Scenario.idleHost Scenario.idleHost
              Scenario.initializeRequest Scenario.toolsListRequest EnhancedHttpHandler.new
              (Params.mk (Some "2025-06-18") (Some Scenario.toolsOnly)
                 (Some {| ci_name := "test"; ci_version := "1.0" |}) None None None None)
              eq_refl eq_refl) as (Htools & _ & _).
  destruct (initialize_decides_listing Scenario.idleHost Scenario.idleHost
              Scenario.initializeRequest Scenario.resourcesListRequest EnhancedHttpHandler.new
              (Params.mk (Some "2025-06-18") (Some Scenario.toolsOnly)
                 (Some {| ci_name := "test"; ci_version := "1.0" |}) None None None None)
              eq_refl eq_refl) as (_ & Hresources & _).
  split; [exact (Htools eq_refl) | exact (Hresources eq_refl)].
Defined.

(** X5. A request that needs parameters and has none is answered with the
    InternalError code -32603 and status 400: [initialize] in any state, and
    [tools/call], [resources/read] and [prompts/get] once the capability is
    negotiated.  No session is created or changed. *)
Theorem missing_params_internal_error (h : Js.Host) (request : JsonRpcRequest.t)
    (this : EnhancedHttpHandler.t) (method : string) :
  JsonRpcRequest.jsonrpc request = Some "2.0" →
  JsonRpcRequest.method request = Some method →
  JsonRpcRequest.params request = None →
  method = "initialize"
  ∨ (method = "tools/call"
     ∧ evalState (SessionManager.hasCapability EnhancedHttpHandler.sessionId Tools)
         (EnhancedHttpHandler.sessionManager this) = true)
  ∨ (method = "resources/read"
     ∧ evalState (SessionManager.hasCapability EnhancedHttpHandler.sessionId Resources)
         (EnhancedHttpHandler.sessionManager this) = true)
  ∨ (method = "prompts/get"
     ∧ evalState (SessionManager.hasCapability EnhancedHttpHandler.sessionId Prompts)
         (EnhancedHttpHandler.sessionManager this) = true) →
  ∃ message : string,
    EnhancedHttpHandler.handleRequest h (Some request) this
    = ({| status := 400;
          body := JsonRpcResponse.mk (JsonRpcRequest.id request) None
                    (Some (JsonRpcResponse.mk_error (-32603) message)) |},
       Laws.received (Some method) this).
Proof.
  intros Hrpc Hm Hp Hcases.
  rewrite handleRequest_routed; [|done|].
  2:{ rewrite Hm. by destruct Hcases as [->|[[-> _]|[[-> _]|[-> _]]]]. }
  unfold evalState, execState, EnhancedHttpHandler.routeRequest. rewrite Hm, Hp.
  destruct Hcases as [->|[[-> Hcap]|[[-> Hcap]|[-> Hcap]]]];
    cbn [Js.strictEq String.eqb Ascii.eqb Bool.eqb andb];
    rewrite ?gate_passes by done; eexists; reflexivity.
Qed.

Lemma missing_params_internal_error_witness :
  ∃ message : string,
    EnhancedHttpHandler.handleRequest Scenario.idleHost
      (Some (JsonRpcRequest.mk (Some "2.0") (Js.Num 1) (Some "initialize") None))
      EnhancedHttpHandler.new
    = ({| status := 400;
          body := JsonRpcResponse.mk (Js.Num 1) None
                    (Some (JsonRpcResponse.mk_error (-32603) message)) |},
       Laws.received (Some "initialize") EnhancedHttpHandler.new).
Proof.
  apply (missing_params_internal_error Scenario.idleHost
           (JsonRpcRequest.mk (Some "2.0") (Js.Num 1) (Some "initialize") None)
           EnhancedHttpHandler.new "initialize"); [reflexivity..|].
  by left.
Defined.

(** ** Lookups by name *)










Lemma getSubstitution_noDollar (matched before after value : string) :
  Laws.noDollar value = true → Js.getSubstitution matched before after value = value.
Proof.
  induction value as [|c value IH]; [done|]. simpl.
  rewrite andb_true_iff, negb_true_iff. intros [-> Hv]. by rewrite IH.
Qed.

(** X9. A pass inserts a value without [$] as it is, in place of the first
    occurrence of the placeholder.  A value with [$] is expanded by the
    replacement patterns instead: [$$] becomes [$], and [$&] brings the
    placeholder back. *)
Theorem substitute_inserts_verbatim :
  (∀ template key value : string,
     Spec.occurs (Spec.placeholder key) template →
     Laws.noDollar value = true →
     ∃ before after : string,
       template = before ++ Spec.placeholder key ++ after
       ∧ (∀ x y : string, template = x ++ Spec.placeholder key ++ y →
            (String.length before ≤ String.length x)%nat)
       ∧ EnhancedHttpHandler.substitute template (key, value) = before ++ value ++ after)
  ∧ EnhancedHttpHandler.substitute "Cost: {{price}}" ("price", "$$5") = "Cost: $5"
  ∧ EnhancedHttpHandler.substitute "Cost: {{price}}" ("price", "$&") = "Cost: {{price}}".
Proof.
  split_and!; [|reflexivity..].
  intros template key value Hocc Hv.
  unfold EnhancedHttpHandler.substitute, Js.replace.
  change ("{{" ++ key ++ "}}") with (Spec.placeholder key).
  apply occursb_occurs in Hocc. unfold Spec.occursb in Hocc.
  destruct (Js.find (Spec.placeholder key) template) as [[before after]|] eqn:Hf; [|done].
  exists before, after. split_and!; [by apply find_Some|by apply find_first with after|].
  by rewrite getSubstitution_noDollar.
Qed.

Lemma substitute_inserts_verbatim_witness :
  ∃ before after : string,
    "Please calculate: {{expression}}" = before ++ Spec.placeholder "expression" ++ after
    ∧ (∀ x y : string,
         "Please calculate: {{expression}}" = x ++ Spec.placeholder "expression" ++ y →
         (String.length before ≤ String.length x)%nat)
    ∧ EnhancedHttpHandler.substitute "Please calculate: {{expression}}" ("expression", "2+2")
      = before ++ "2+2" ++ after.
Proof.
  apply (proj1 substitute_inserts_verbatim "Please calculate: {{expression}}"
           "expression" "2+2").
  - by exists "Please calculate: ", "".
  - reflexivity.
Defined.

(** ** The tools *)

Lemma removeWhitespace_noWhitespace (s : string) :
  Laws.noWhitespace (Js.removeWhitespace s) = true.
Proof.
  induction s as [|c s IH]; [done|]. simpl.
  destruct (Js.isWhitespace c) eqn:Hc; [done|]. simpl. by rewrite Hc.
Qed.

Lemma safe_char_arithmetic (c : ascii) :
  Tools.isSafeChar c = true → Js.isWhitespace c = false → Laws.arithmeticChar c = true.
Proof.
  destruct c as [[] [] [] [] [] [] [] []]; vm_compute; congruence.
Qed.

Lemma safe_string_arithmetic (s : string) :
  Tools.allChars Tools.isSafeChar s = true → Laws.noWhitespace s = true →
  Tools.allChars Laws.arithmeticChar s = true.
Proof.
  induction s as [|c s IH]; [done|]. simpl.
  rewrite !andb_true_iff, negb_true_iff. intros [Hc Hs] [Hw Hn].
  split; [by apply safe_char_arithmetic | by apply IH].
Qed.

(** X10. The calculator evaluates nothing but arithmetic text: the string
    that reaches the evaluator is never empty and consists of digits, the
    operators [+ - * /], parentheses and the decimal point only, so two
    runtimes that agree on such strings give the same result for every
    expression.  An expression with any other character left after the
    whitespace is removed, or with nothing left, is refused as "Expression
    contains invalid characters" without evaluation. *)
Theorem calculator_evaluates_arithmetic_only :
  (∀ (h1 h2 : Js.Host) (expression : option string),
     (∀ s : string,
        s ≠ "" → Tools.allChars Laws.arithmeticChar s = true →
        Js.evaluate h1 s = Js.evaluate h2 s) →
     Tools.calculatorTool h1 expression = Tools.calculatorTool h2 expression)
  ∧ (∀ (h : Js.Host) (expression : string),
       expression ≠ "" →
       Tools.allChars Laws.arithmeticChar (Js.removeWhitespace expression) = false
       ∨ Js.removeWhitespace expression = "" →
       Tools.calculatorTool h (Some expression)
       = ToolResult.mk false None (Some "Expression contains invalid characters")).
Proof.
  split.
  - intros h1 h2 expression Hagree. unfold Tools.calculatorTool.
    destruct (Js.falsyString expression); [done|].
    destruct (Tools.safePattern _) eqn:Hsafe; [|done]. cbn [negb].
    unfold Tools.safePattern in Hsafe.
    apply andb_true_iff in Hsafe as [Hne Hsafe]. apply negb_true_iff in Hne.
    rewrite Hagree; [done|by apply String.eqb_neq|].
    apply safe_string_arithmetic; [done|apply removeWhitespace_noWhitespace].
  - intros h expression Hne Hbad. unfold Tools.calculatorTool.
    assert (Js.falsyString (Some expression) = false) as ->
      by (by apply String.eqb_neq).
    cbv zeta. cbn [Js.showString default from_option id].
    assert (Tools.safePattern (Js.removeWhitespace expression) = false) as ->; [|done].
    unfold Tools.safePattern. destruct Hbad as [Hbad| ->]; [|done].
    apply andb_false_iff. right.
    destruct (Tools.allChars Tools.isSafeChar _) eqn:Hsafe; [|done].
    by rewrite safe_string_arithmetic in Hbad
      by (done || apply removeWhitespace_noWhitespace).
Qed.

Lemma calculator_evaluates_arithmetic_only_witness :
  Tools.calculatorTool Scenario.idleHost (Some "2 + 2") = Tools.calculatorTool
    {| Js.now := fun _ => 0; Js.Math_random := 0%Q; Js.round := fun q => q;
       Js.toISOString := fun _ => ""; Js.toLocaleString := fun _ => "";
       Js.Number_toString := fun _ => ""; Js.notAFunction := fun _ => "";
       Js.evaluate := fun s => if Tools.allChars Laws.arithmeticChar s
                               then inr "SyntaxError" else inl "pwned" |}
    (Some "2 + 2")
  ∧ Tools.calculatorTool Fixtures.halfHost (Some "  ")
    = ToolResult.mk false None (Some "Expression contains invalid characters").
Proof.
  destruct calculator_evaluates_arithmetic_only as [Hagree Hrefuse]. split.
  - apply Hagree. intros s _ Hs. simpl. by rewrite Hs.
  - apply Hrefuse; [discriminate|by right].
Defined.

Lemma round_proper (h : Js.Host) (x y : Q) :
  Laws.roundsToNearest h → (x == y)%Q → (Js.round h x == Js.round h y)%Q.
Proof.
  intros [Hmono _] Hxy. apply Qle_antisym; apply Hmono; rewrite Hxy; apply Qle_refl.
Qed.

Lemma random_point_bounds (h : Js.Host) (lo hi : Z) :
  Laws.unitRandom h → Laws.roundsToNearest h →
  (Z.abs lo ≤ 2 ^ 52)%Z → (Z.abs hi ≤ 2 ^ 52)%Z → (lo ≤ hi)%Z →
  let range := Js.round h (inject_Z hi - inject_Z lo)%Q in
  let n := Qfloor (Js.round h (Js.round h (Js.Math_random h * range) + inject_Z lo))%Q in
  (lo ≤ n)%Z ∧ (n ≤ hi)%Z.
Proof.
  intros [Hr0 Hr1] Hround Hlo Hhi Hle range n.
  pose proof Hround as [Hmono Hexact].
  assert (H52 : (2 ^ 52 = 4503599627370496)%Z) by reflexivity.
  assert (H53 : (2 ^ 53 = 9007199254740992)%Z) by reflexivity.
  assert (Hrange : (range == inject_Z (hi - lo))%Q).
  { subst range. rewrite <- (Hexact (hi - lo)%Z) by lia.
    apply round_proper; [done|].
    replace (hi - lo)%Z with (hi + - lo)%Z by lia.
    by rewrite inject_Z_plus, inject_Z_opp. }
  assert (Hrange0 : (0 <= range)%Q).
  { rewrite Hrange. change 0%Q with (inject_Z 0). rewrite <- Zle_Qle. lia. }
  assert (Hzero : (Js.round h 0 == 0)%Q) by (apply (Hexact 0%Z); lia).
  set (product := Js.round h (Js.Math_random h * range)) in *.
  assert (Hproduct : (0 <= product)%Q ∧ (product <= inject_Z (hi - lo))%Q).
  { subst product. split.
    - rewrite <- Hzero. apply Hmono. by apply Qmult_le_0_compat.
    - rewrite <- (Hexact (hi - lo)%Z) by lia. apply Hmono.
      rewrite <- Hrange. rewrite <- (Qmult_1_l range) at 2.
      apply Qmult_le_compat_r; [by apply Qlt_le_weak|done]. }
  destruct Hproduct as [Hp0 Hp1].
  assert (Hsum : (inject_Z lo <= Js.round h (product + inject_Z lo))%Q
                 ∧ (Js.round h (product + inject_Z lo) <= inject_Z hi)%Q).
  { split.
    - rewrite <- (Hexact lo) at 1 by lia. apply Hmono.
      rewrite <- (Qplus_0_l (inject_Z lo)) at 1. by apply Qplus_le_compat; [|apply Qle_refl].
    - rewrite <- (Hexact hi) by lia. apply Hmono.
      assert (Hhi' : (inject_Z hi == inject_Z (hi - lo) + inject_Z lo)%Q).
      { rewrite <- inject_Z_plus. by replace (hi - lo + lo)%Z with hi by lia. }
      rewrite Hhi'. by apply Qplus_le_compat; [|apply Qle_refl]. }
  destruct Hsum as [Hs0 Hs1]. subst n. split.
  - apply Qfloor_resp_le in Hs0. by rewrite Qfloor_Z in Hs0.
  - apply Qfloor_resp_le in Hs1. by rewrite Qfloor_Z in Hs1.
Qed.

(** X11. With [Math.random()] in [[0, 1)] and a rounding that keeps the
    order and is exact on the integers up to [2^53], an integer draw between
    integer bounds [min <= max] of magnitude at most [2^52] (defaults 0 and
    100) succeeds with the text of an integer [n] such that [min <= n <=
    max]: both bounds are inclusive.  With [min > max] the tool fails. *)
Theorem randomNumber_integer_range (h : Js.Host) (min max : option Z)
    (isInteger : option bool) :
  Laws.unitRandom h →
  Laws.roundsToNearest h →
  default true isInteger = true →
  let lo := default 0 min in
  let hi := default 100 max in
  (Z.abs lo ≤ 2 ^ 52)%Z →
  (Z.abs hi ≤ 2 ^ 52)%Z →
  ((lo ≤ hi)%Z →
   ∃ n : Z,
     Tools.randomNumberTool h min max isInteger
     = ToolResult.mk true (Some (Js.Number_toString h (inject_Z n))) None
     ∧ (lo ≤ n)%Z ∧ (n ≤ hi)%Z)
  ∧ ((hi < lo)%Z →
     Tools.randomNumberTool h min max isInteger
     = ToolResult.mk false None
         (Some "Minimum value cannot be greater than maximum value")).
Proof.
  intros Hrandom Hround Hint lo hi Hlo Hhi. unfold Tools.randomNumberTool.
  fold lo hi. cbv zeta. rewrite Hint. split.
  - intros Hle. assert ((lo >? hi) = false) as -> by lia.
    eexists. split; [reflexivity|]. by apply random_point_bounds.
  - intros Hlt. by assert ((lo >? hi) = true) as -> by lia.
Qed.

Lemma randomNumber_integer_range_witness :
  ∃ n : Z,
    Tools.randomNumberTool Fixtures.halfHost (Some 1) (Some 6) None
    = ToolResult.mk true (Some (Js.Number_toString Fixtures.halfHost (inject_Z n))) None
    ∧ (1 ≤ n)%Z ∧ (n ≤ 6)%Z.
Proof.
  refine (proj1 (randomNumber_integer_range Fixtures.halfHost (Some 1) (Some 6) None
                   _ _ _ _ _) _).
  - split; vm_compute; congruence.
  - split; [by intros x y Hxy|intros z _; simpl; apply Qeq_refl].
  - reflexivity.
  - simpl. lia.
  - simpl. lia.
  - vm_compute. congruence.
Defined.







Lemma rev_app_rev_app (s t u : string) :
  String.rev_app (String.rev_app s t) u = String.rev_app t (s ++ u).
Proof.
  revert t u. induction s as [|c s IH]; intros t u; [done|].
  simpl. rewrite IH. by rewrite app_cons.
Qed.

Lemma string_app_nil_r (s : string) : s ++ "" = s.
Proof. induction s as [|c s IH]; [done|]. by rewrite app_cons, IH. Qed.

Lemma string_rev_involutive (s : string) : String.rev (String.rev s) = s.
Proof.
  unfold String.rev. rewrite rev_app_rev_app. simpl. apply string_app_nil_r.
Qed.

Lemma rev_app_length (s t : string) :
  String.length (String.rev_app s t) = (String.length s + String.length t)%nat.
Proof.
  revert t. induction s as [|c s IH]; intros t; [done|].
  simpl. rewrite IH. simpl. lia.
Qed.

Lemma string_rev_length (s : string) : String.length (String.rev s) = String.length s.
Proof. unfold String.rev. rewrite rev_app_length. simpl. lia. Qed.

Lemma nonempty_length (s : string) : s ≠ "" ↔ (0 < String.length s)%nat.
Proof. destruct s; simpl; split; (done || lia). Qed.

Lemma stringTool_nonempty (text operation : string) :
  text ≠ "" →
  Js.falsyString (Some text) = false.
Proof. intros Hne. by apply String.eqb_neq. Qed.

(** X13. Reversing is its own inverse: for a non-empty text the [reverse]
    operation succeeds with a text of the same length, and reversing that
    gives the text back. *)
Theorem stringTool_reverse_round_trip (text : string) :
  text ≠ "" →
  ∃ reversed : string,
    Tools.stringTool (Some text) (Some "reverse") = ToolResult.mk true (Some reversed) None
    ∧ String.length reversed = String.length text
    ∧ Tools.stringTool (Some reversed) (Some "reverse")
      = ToolResult.mk true (Some text) None.
Proof.
  intros Hne. exists (String.rev text).
  assert (Hrev : String.rev text ≠ "").
  { apply nonempty_length. rewrite string_rev_length. by apply nonempty_length. }
  assert (Hreverse : ∀ s : string, s ≠ "" →
            Tools.stringTool (Some s) (Some "reverse")
            = ToolResult.mk true (Some (String.rev s)) None).
  { intros s Hs. unfold Tools.stringTool. by rewrite stringTool_nonempty. }
  rewrite !Hreverse by done. split_and!; [done|apply string_rev_length|].
  by rewrite string_rev_involutive.
Qed.

Lemma stringTool_reverse_round_trip_witness :
  ∃ reversed : string,
    Tools.stringTool (Some "abc") (Some "reverse") = ToolResult.mk true (Some reversed) None
    ∧ String.length reversed = String.length "abc"
    ∧ Tools.stringTool (Some reversed) (Some "reverse")
      = ToolResult.mk true (Some "abc") None.
Proof. apply stringTool_reverse_round_trip. discriminate. Defined.




(** ** The session store, continued *)

Lemma updateSessionMetadata_exec (this : SessionManager.t) (id : string)
    (metadata : gmap string Js.value) (now : Z) :
  SessionManager.updateSessionMetadata id metadata now this =
    match SessionManager.sessions this !! id with
    | Some session =>
        (tt,
         SessionManager.mk
           (<[id := ManagedSession.set_lastActivity now
                      (ManagedSession.set_metadata
                         (metadata ∪ ManagedSession.metadata session) session)]>
              (SessionManager.sessions this))
           (SessionManager.serverCapabilities this))
    | None => (tt, this)
    end.
Proof.
  unfold SessionManager.updateSessionMetadata, bind, get; simpl.
  by destruct (SessionManager.sessions this !! id).
Qed.

Lemma getSessionCapabilities_state (this : SessionManager.t) (id : string) :
  execState (SessionManager.getSessionCapabilities id) this = this.
Proof.
  unfold execState, SessionManager.getSessionCapabilities, bind, get; simpl.
  by destruct (SessionManager.sessions this !! id).
Qed.

Lemma cleanupStaleSessions_state (maxInactivityMs : option Z) (now : Z)
    (this : SessionManager.t) :
  execState (SessionManager.cleanupStaleSessions maxInactivityMs now) this
  = SessionManager.mk
      (filter
         (λ kv, managedStale (default SessionManager.defaultMaxInactivityMs maxInactivityMs)
                  now kv.2 = false)
         (SessionManager.sessions this))
      (SessionManager.serverCapabilities this).
Proof.
  unfold SessionManager.cleanupStaleSessions.
  change (execState (bind get ?f) this) with (execState (f this) this).
  cbv beta zeta. rewrite cleanupStaleSessions_loop.
  unfold SessionManager.set_sessions. f_equal. apply sweep_filter.
Qed.

Lemma perform_serverCapabilities (this : SessionManager.t) (op : Laws.Operation) :
  SessionManager.serverCapabilities (Laws.perform this op)
  = SessionManager.serverCapabilities this.
Proof.
  destruct op; unfold Laws.perform, execState;
    rewrite ?createSession_exec, ?getSession_exec, ?hasCapability_exec,
      ?updateSessionMetadata_exec; try reflexivity.
  - by destruct (SessionManager.sessions this !! sessionId).
  - by destruct (SessionManager.sessions this !! sessionId).
  - fold (execState (SessionManager.cleanupStaleSessions maxInactivityMs now) this).
    by rewrite cleanupStaleSessions_state.
  - fold (execState (SessionManager.getSessionCapabilities sessionId) this).
    by rewrite getSessionCapabilities_state.
Qed.

Lemma perform_consistent (this : SessionManager.t) (op : Laws.Operation) :
  Laws.consistent this → Laws.consistent (Laws.perform this op).
Proof.
  intros Hc key session.
  pose proof (perform_serverCapabilities this op) as Hcaps. rewrite Hcaps. clear Hcaps.
  destruct op; unfold Laws.perform, execState;
    rewrite ?createSession_exec, ?getSession_exec, ?hasCapability_exec,
      ?updateSessionMetadata_exec; cbn [snd]; try apply Hc.
  - cbn [SessionManager.sessions]. rewrite lookup_insert.
    case_decide as Hk; [|apply Hc]. intros [= <-]. by subst key.
  - destruct (SessionManager.sessions this !! sessionId) as [s|] eqn:Hs; [|apply Hc].
    cbn [snd SessionManager.sessions]. rewrite lookup_insert.
    case_decide as Hk; [|apply Hc]. intros [= <-]. subst key. by apply Hc in Hs.
  - destruct (SessionManager.sessions this !! sessionId) as [s|] eqn:Hs; [|apply Hc].
    cbn [snd SessionManager.sessions]. rewrite lookup_insert.
    case_decide as Hk; [|apply Hc]. intros [= <-]. subst key. by apply Hc in Hs.
  - cbn [SessionManager.removeSession modify snd SessionManager.set_sessions
           SessionManager.sessions].
    unfold SessionManager.removeSession, modify. cbn [snd SessionManager.set_sessions
      SessionManager.sessions]. rewrite lookup_delete.
    case_decide; [done|apply Hc].
  - fold (execState (SessionManager.cleanupStaleSessions maxInactivityMs now) this).
    rewrite cleanupStaleSessions_state. cbn [SessionManager.sessions].
    intros [Hs _]%map_lookup_filter_Some. by apply Hc.
  - fold (execState (SessionManager.getSessionCapabilities sessionId) this).
    rewrite getSessionCapabilities_state. apply Hc.
  - unfold SessionManager.clearAllSessions, modify.
    cbn [snd SessionManager.set_sessions SessionManager.sessions].
    by rewrite lookup_empty.
Qed.

(** X15. In every state that the session manager reaches from its
    constructor by calls of its methods, the server capabilities are the
    constructor's, each stored session carries its key as [id], its
    negotiated set is the negotiation of the server capabilities with the
    client capabilities it records, and so [hasCapability] answers with the
    rule table at those two sets. *)
Theorem session_store_invariant (serverCapabilities : option Capabilities.t)
    (calls : list Laws.Operation) :
  let this := foldl Laws.perform (SessionManager.new serverCapabilities) calls in
  SessionManager.serverCapabilities this
  = default SessionManager.defaultServerCapabilities serverCapabilities
  ∧ Laws.consistent this
  ∧ (∀ (id : string) (session : ManagedSession.t) (k : CapabilityKey),
       SessionManager.sessions this !! id = Some session →
       evalState (SessionManager.hasCapability id k) this
       = Spec.ruleTable (SessionManager.serverCapabilities this)
           (ManagedSession.clientCapabilities session) k).
Proof.
  intros this.
  assert (Hreach : ∀ start,
            SessionManager.serverCapabilities (foldl Laws.perform start calls)
            = SessionManager.serverCapabilities start
            ∧ (Laws.consistent start → Laws.consistent (foldl Laws.perform start calls))).
  { induction calls as [|op calls IH]; intros start; [done|]. cbn [foldl].
    destruct (IH (Laws.perform start op)) as [Hcaps Hcons]. split.
    - by rewrite Hcaps, perform_serverCapabilities.
    - intros Hstart. by apply Hcons, perform_consistent. }
  destruct (Hreach (SessionManager.new serverCapabilities)) as [Hcaps Hcons].
  assert (Hthis : Laws.consistent this).
  { apply Hcons. intros key session. unfold SessionManager.new; simpl.
    by rewrite lookup_empty. }
  split_and!; [exact Hcaps|exact Hthis|].
  intros id session k Hs. unfold evalState. rewrite hasCapability_exec, Hs; simpl.
  destruct (Hthis id session Hs) as [_ ->]. apply negotiatedFlag_ruleTable.
Qed.

Lemma session_store_invariant_witness :
  let this :=
    foldl Laws.perform (SessionManager.new None)
      [ Laws.CreateSession "a" None None Scenario.toolsOnly 1 1;
        Laws.UpdateSessionMetadata "a" {[ "k" := Js.Num 1 ]} 2;
        Laws.CleanupStaleSessions None 3 ] in
  SessionManager.sessions this !! "a"
  = Some (ManagedSession.mk "a" None None Scenario.toolsOnly
            (NegotiatedCapabilities.mk true false false false false None)
            {[ "k" := Js.Num 1 ]} 1 2)
  ∧ evalState (SessionManager.hasCapability "a" Resources) this
    = Spec.ruleTable (SessionManager.serverCapabilities this) Scenario.toolsOnly Resources.
Proof.
  intros this.
  assert (Hs : SessionManager.sessions this !! "a"
               = Some (ManagedSession.mk "a" None None Scenario.toolsOnly
                         (NegotiatedCapabilities.mk true false false false false None)
                         {[ "k" := Js.Num 1 ]} 1 2))
    by (vm_compute; reflexivity).
  split; [exact Hs|].
  exact (proj2 (proj2 (session_store_invariant None _)) "a" _ Resources Hs).
Defined.

(** X16. [updateSessionMetadata] merges: in the session it finds, a key of
    the argument gets the argument's value and every other key keeps its old
    one; [lastActivity] becomes the clock reading; the identity, creation
    time, client and negotiated capabilities of the session and all other
    sessions stay as they were.  For an id without a session nothing
    changes. *)
Theorem updateSessionMetadata_merges (this : SessionManager.t) (id : string)
    (metadata : gmap string Js.value) (now : Z) :
  let after := execState (SessionManager.updateSessionMetadata id metadata now) this in
  (∀ session : ManagedSession.t,
     SessionManager.sessions this !! id = Some session →
     ∃ session' : ManagedSession.t,
       SessionManager.sessions after !! id = Some session'
       ∧ (∀ key : string,
            ManagedSession.metadata session' !! key
            = match metadata !! key with
              | Some v => Some v
              | None => ManagedSession.metadata session !! key
              end)
       ∧ ManagedSession.lastActivity session' = now
       ∧ ManagedSession.createdAt session' = ManagedSession.createdAt session
       ∧ ManagedSession.id session' = ManagedSession.id session
       ∧ ManagedSession.clientCapabilities session' = ManagedSession.clientCapabilities session
       ∧ ManagedSession.negotiatedCapabilities session'
         = ManagedSession.negotiatedCapabilities session)
  ∧ (SessionManager.sessions this !! id = None → after = this)
  ∧ (∀ other : string, other ≠ id →
       SessionManager.sessions after !! other = SessionManager.sessions this !! other)
  ∧ (∀ (any : string) (k : CapabilityKey),
       evalState (SessionManager.hasCapability any k) after
       = evalState (SessionManager.hasCapability any k) this).
Proof.
  intros after. subst after. unfold execState, evalState.
  rewrite updateSessionMetadata_exec.
  destruct (SessionManager.sessions this !! id) as [s|] eqn:Hs; cbn [snd].
  - split_and!.
    + intros session [= <-]. eexists. split; [apply lookup_insert_eq|].
      split_and!; try reflexivity.
      intros key. cbn. rewrite lookup_union.
      by destruct (metadata !! key), (ManagedSession.metadata s !! key).
    + done.
    + intros other Hne. cbn. by rewrite lookup_insert_ne.
    + intros any k. rewrite !hasCapability_exec. cbn. rewrite lookup_insert.
      case_decide as Heq; [|done]. subst any. by rewrite Hs.
  - by split_and!.
Qed.

Lemma updateSessionMetadata_merges_witness :
  ∃ session' : ManagedSession.t,
    SessionManager.sessions
      (execState
         (SessionManager.updateSessionMetadata "s1" {[ "stream" := Js.Str "open" ]} 1500)
         Scenario.store) !! "s1" = Some session'
    ∧ ManagedSession.metadata session' !! "stream" = Some (Js.Str "open")
    ∧ ManagedSession.lastActivity session' = 1500.
Proof.
  destruct (proj1 (updateSessionMetadata_merges Scenario.store "s1"
                     {[ "stream" := Js.Str "open" ]} 1500) Scenario.storedSession)
    as (session' & Hs & Hmd & Hla & _).
  - vm_compute. reflexivity.
  - exists session'. split_and!; [exact Hs| |exact Hla].
    rewrite Hmd. reflexivity.
Defined.

Lemma removeSession_exec (this : SessionManager.t) (id : string) :
  SessionManager.removeSession id this
  = (tt, SessionManager.mk (delete id (SessionManager.sessions this))
           (SessionManager.serverCapabilities this)).
Proof. reflexivity. Qed.

Lemma getActiveSessions_length (this : SessionManager.t) :
  length (evalState SessionManager.getActiveSessions this)
  = size (SessionManager.sessions this).
Proof.
  unfold evalState, SessionManager.getActiveSessions, bind, get, ret; simpl.
  by rewrite length_fmap, length_map_to_list.
Qed.

(** X17. Creating and removing compose as insert and delete: creating a
    session under a free id and removing it gives the manager back, removing
    twice is removing once, and after a removal the id has no capability and
    no session while every other id is untouched.  The list of active
    sessions grows by one when a session is created under a free id, keeps
    its length when the id was taken, and shrinks by one when a stored
    session is removed. *)
Theorem create_remove_compose (this : SessionManager.t) (id : string)
    (ci : option ClientInfo) (pv : option string) (caps : Capabilities.t) (tc ta : Z) :
  let created := execState (SessionManager.createSession id ci pv caps tc ta) this in
  let removed := execState (SessionManager.removeSession id) this in
  let active := fun st => length (evalState SessionManager.getActiveSessions st) in
  (SessionManager.sessions this !! id = None →
   execState (SessionManager.removeSession id) created = this
   ∧ active created = S (active this)
   ∧ removed = this)
  ∧ (is_Some (SessionManager.sessions this !! id) →
     active created = active this ∧ S (active removed) = active this)
  ∧ execState (SessionManager.removeSession id) removed = removed
  ∧ (∀ k : CapabilityKey, evalState (SessionManager.hasCapability id k) removed = false)
  ∧ evalState (SessionManager.getSession id tc) removed = None
  ∧ (∀ other : string, other ≠ id →
       SessionManager.sessions removed !! other = SessionManager.sessions this !! other).
Proof.
  intros created removed active. subst created removed active. cbv beta.
  rewrite !getActiveSessions_length. unfold execState, evalState.
  rewrite !createSession_exec, !removeSession_exec. cbv zeta. cbn [snd].
  rewrite ?removeSession_exec, !getSession_exec.
  cbn [snd fst SessionManager.sessions SessionManager.serverCapabilities].
  split_and!.
  - intros Hfree. rewrite delete_insert_id, map_size_insert_None, delete_id by done.
    by destruct this.
  - intros Hsome. rewrite map_size_insert_Some, map_size_delete_Some by done.
    split; [done|]. destruct Hsome as [s Hs].
    assert (size (SessionManager.sessions this) ≠ 0%nat); [|lia].
    intros Hempty%map_size_empty_iff. by rewrite Hempty, lookup_empty in Hs.
  - by rewrite delete_delete_eq.
  - intros k. rewrite hasCapability_exec. cbn. by rewrite lookup_delete_eq.
  - by rewrite lookup_delete_eq.
  - intros other Hne. by rewrite lookup_delete_ne.
Qed.

Lemma create_remove_compose_witness :
  execState (SessionManager.removeSession "s2")
    (execState (SessionManager.createSession "s2" None None Scenario.fullClient 5 5)
       Scenario.store)
  = Scenario.store
  ∧ length (evalState SessionManager.getActiveSessions
              (execState (SessionManager.removeSession "s1") Scenario.store)) = 0%nat.
Proof.
  destruct (create_remove_compose Scenario.store "s2" None None Scenario.fullClient 5 5)
    as (Hfree & _).
  destruct (create_remove_compose Scenario.store "s1" None None Scenario.fullClient 5 5)
    as (_ & Htaken & _).
  split.
  - apply Hfree. vm_compute. reflexivity.
  - assert (Hsome : is_Some (SessionManager.sessions Scenario.store !! "s1")).
    { exists Scenario.storedSession. vm_compute. reflexivity. }
    destruct (Htaken Hsome) as [_ Hshrink].
    assert (Hone : length (evalState SessionManager.getActiveSessions Scenario.store) = 1%nat)
      by (vm_compute; reflexivity).
    cbv beta in Hshrink. rewrite Hone in Hshrink. lia.
Defined.

(** X18. [getSession] extends the idle window: it returns the stored
    session with [lastActivity] set to the clock reading and stores it so,
    changing nothing else in it and no other session, and a sweep at a time
    within the threshold of that reading keeps the session, however long it
    had been idle before.  For an id without a session it returns nothing and
    changes nothing. *)
Theorem getSession_extends_idle_window (this : SessionManager.t) (id : string)
    (touched : Z) :
  let got := SessionManager.getSession id touched this in
  (∀ session : ManagedSession.t,
     SessionManager.sessions this !! id = Some session →
     got.1 = Some (ManagedSession.set_lastActivity touched session)
     ∧ SessionManager.sessions got.2 !! id
       = Some (ManagedSession.set_lastActivity touched session)
     ∧ (∀ other : string, other ≠ id →
          SessionManager.sessions got.2 !! other = SessionManager.sessions this !! other)
     ∧ (∀ (maxInactivityMs : option Z) (now : Z),
          (now - touched
           ≤ default SessionManager.defaultMaxInactivityMs maxInactivityMs)%Z →
          SessionManager.sessions
            (execState (SessionManager.cleanupStaleSessions maxInactivityMs now) got.2)
            !! id
          = Some (ManagedSession.set_lastActivity touched session)))
  ∧ (SessionManager.sessions this !! id = None → got = (None, this)).
Proof.
  intros got. subst got. rewrite getSession_exec.
  destruct (SessionManager.sessions this !! id) as [s|] eqn:Hs; [|by split].
  split; [|done]. intros session [= <-]. cbn [fst snd SessionManager.sessions].
  split_and!; [done|apply lookup_insert_eq| |].
  - intros other Hne. by rewrite lookup_insert_ne.
  - intros maxInactivityMs now Hwithin. rewrite cleanupStaleSessions_exec.
    apply map_lookup_filter_Some. split; [apply lookup_insert_eq|].
    unfold managedStale; simpl. lia.
Qed.

Lemma getSession_extends_idle_window_witness :
  SessionManager.sessions
    (execState (SessionManager.cleanupStaleSessions None 900000)
       (SessionManager.getSession "s1" 700000 Scenario.store).2) !! "s1"
  = Some (ManagedSession.set_lastActivity 700000 Scenario.storedSession)
  ∧ SessionManager.sessions
      (execState (SessionManager.cleanupStaleSessions None 900000) Scenario.store) !! "s1"
    = None.
Proof.
  split.
  - refine (proj2 (proj2 (proj2 (proj1
              (getSession_extends_idle_window Scenario.store "s1" 700000)
              Scenario.storedSession _))) None 900000 _).
    + vm_compute. reflexivity.
    + vm_compute. congruence.
  - vm_compute. reflexivity.
Defined.







(** ** The streaming sessions *)

Lemma selected_absent (select : SSESession.t → bool) (t : string)
    (l : list (string * SSESession.t)) :
  t ∉ l.*1 → Streams.selected select t l = 0%nat.
Proof.
  unfold Streams.selected. induction l as [|[k v] l IH]; intros Hnot; [done|].
  rewrite fmap_cons, not_elem_of_cons in Hnot. destruct Hnot as [Hne Hnot].
  cbn [List.filter fst snd]. assert (Hkt : (k =? t) = false) by (apply String.eqb_neq; intros ->; by apply Hne).
  rewrite Hkt, andb_false_r. by apply IH.
Qed.

Lemma selected_present (select : SSESession.t → bool) (t : string) (v : SSESession.t)
    (l : list (string * SSESession.t)) :
  NoDup l.*1 → (t, v) ∈ l →
  Streams.selected select t l = if select v then 1%nat else 0%nat.
Proof.
  induction l as [|[k w] l IH]; intros Hnd Hin; [by apply elem_of_nil in Hin|].
  rewrite fmap_cons in Hnd. apply NoDup_cons in Hnd as [Hk Hnd].
  apply elem_of_cons in Hin as [[= <- <-] | Hin].
  - pose proof (selected_absent select t l Hk) as Hrest.
    unfold Streams.selected in *. cbn [List.filter fst snd].
    rewrite String.eqb_refl, andb_true_r.
    destruct (select v); cbn [length]; by rewrite ?Hrest.
  - assert (Hne : k ≠ t).
    { intros ->. apply Hk. apply list_elem_of_fmap. by exists (t, v). }
    specialize (IH Hnd Hin). unfold Streams.selected in *. cbn [List.filter fst snd].
    apply String.eqb_neq in Hne. by rewrite Hne, andb_false_r.
Qed.

Lemma selected_map (select : SSESession.t → bool) (t : string)
    (m : gmap string SSESession.t) :
  Streams.selected select t (map_to_list m)
  = match m !! t with
    | Some session => if select session then 1%nat else 0%nat
    | None => 0%nat
    end.
Proof.
  destruct (m !! t) as [session|] eqn:Hm.
  - apply selected_present; [apply NoDup_fst_map_to_list|by apply elem_of_map_to_list].
  - apply selected_absent. intros ([k v] & -> & Hin)%list_elem_of_fmap.
    apply elem_of_map_to_list in Hin. simpl in Hm. congruence.
Qed.

Lemma sse_sweep_loop (select : SSESession.t → bool) (l : list (string * SSESession.t))
    (this : SSETransportManager.t) :
  NoDup l.*1 →
  (∀ k v, (k, v) ∈ l →
     SSETransportManager.sessions this !! k = Some v ∧ Streams.transportId v = k) →
  let after :=
    execState (for_of l (fun '(sessionId, session) =>
                 if select session
                 then SSETransportManager.removeSession sessionId
                 else ret tt)) this in
  SSETransportManager.cleanupInterval after = SSETransportManager.cleanupInterval this
  ∧ ∀ t, Spec.closes t (SSETransportManager.effects after)
         = (Spec.closes t (SSETransportManager.effects this)
            + Streams.selected select t l)%nat.
Proof.
  revert this. induction l as [|[id s] l IH]; intros this Hnd Hl; cbv zeta; cbn [for_of].
  { split; [done|]. intros t. unfold Streams.selected, execState; simpl. lia. }
  rewrite fmap_cons in Hnd. apply NoDup_cons in Hnd as [Hid Hnd].
  destruct (Hl id s) as [Hs Hbound]; [left|].
  assert (Hrest : ∀ k v, (k, v) ∈ l → k ≠ id).
  { intros k v Hin ->. apply Hid, list_elem_of_fmap. by exists (id, v). }
  unfold execState, bind in *. unfold Streams.selected. cbn [List.filter fst snd].
  fold (Streams.selected select). destruct (select s) eqn:Hsel.
  - rewrite (sse_removeSession_present id this s Hs).
    match goal with |- context [for_of l ?f ?st] => set (this' := st) end.
    destruct (IH this' Hnd) as [Hci Hcl].
    { intros k v Hin. destruct (Hl k v) as [Hk Hb]; [by right|]. split; [|done].
      subst this'. cbn [SSETransportManager.sessions].
      rewrite lookup_delete_ne; [done|]. intros ->. by eapply Hrest. }
    split; [by rewrite Hci|]. intros t. rewrite Hcl. subst this'.
    cbn [SSETransportManager.effects]. rewrite closes_app.
    unfold Streams.transportId in Hbound. rewrite Hbound.
    unfold Streams.selected.
    destruct (SSEServerTransport.close (SSESession.transport s));
      destruct (String.eqb id t) eqn:Heq; simpl; rewrite ?Heq; simpl; lia.
  - cbn [ret]. destruct (IH this Hnd) as [Hci Hcl].
    { intros k v Hin. apply Hl. by right. }
    split; [done|]. intros t. rewrite Hcl. unfold Streams.selected. simpl. lia.
Qed.

Lemma for_of_keys (l : list (string * SSESession.t)) (this : SSETransportManager.t) :
  for_of l.*1 SSETransportManager.removeSession this
  = for_of l (fun '(sessionId, session) =>
                if (fun _ : SSESession.t => true) session
                then SSETransportManager.removeSession sessionId
                else ret tt) this.
Proof.
  revert this. induction l as [|[id s] l IH]; intros this; [done|].
  rewrite fmap_cons. cbn [for_of fst]. unfold bind.
  destruct (SSETransportManager.removeSession id this) as [[] this']. apply IH.
Qed.

Lemma sse_handleMessage_state (id : string) (res : Res) (body : option JsonRpcRequest.t)
    (now : Z) (this : SSETransportManager.t) :
  let after := execState (SSETransportManager.handleMessage id res body now) this in
  SSETransportManager.sessions after
  = match SSETransportManager.sessions this !! id with
    | Some session =>
        <[id := SSESession.set_lastActivity now session]> (SSETransportManager.sessions this)
    | None => SSETransportManager.sessions this
    end
  ∧ SSETransportManager.cleanupInterval after = SSETransportManager.cleanupInterval this
  ∧ ∀ t, Spec.closes t (SSETransportManager.effects after)
         = Spec.closes t (SSETransportManager.effects this).
Proof.
  intros after. subst after.
  unfold execState, SSETransportManager.handleMessage, bind, get.
  destruct (SSETransportManager.sessions this !! id) as [s|] eqn:Hs; [|done].
  unfold modify, SSETransportManager.effect, modify; simpl.
  destruct (SSEServerTransport.handlePostMessage (SSESession.transport s) body)
    as [written [error|]]; simpl; [|done].
  destruct (negb _); simpl; split_and!; try done;
    intros t; rewrite closes_app; simpl; lia.
Qed.

Lemma sse_updateSessionCapabilities_exec (id : string) (capabilities : gmap string Js.value)
    (now : Z) (this : SSETransportManager.t) :
  execState (SSETransportManager.updateSessionCapabilities id capabilities now) this
  = match SSETransportManager.sessions this !! id with
    | Some session =>
        SSETransportManager.set_sessions
          (<[id := SSESession.set_lastActivity now
                     (SSESession.set_capabilities
                        (capabilities ∪ SSESession.capabilities session) session)]>
             (SSETransportManager.sessions this)) this
    | None => this
    end.
Proof.
  unfold execState, SSETransportManager.updateSessionCapabilities, bind, get.
  by destruct (SSETransportManager.sessions this !! id).
Qed.

Lemma sse_cleanupTick_trace (now : Z) (this : SSETransportManager.t) :
  Streams.keyed this →
  let after := execState (SSETransportManager.cleanupTick now) this in
  SSETransportManager.cleanupInterval after = SSETransportManager.cleanupInterval this
  ∧ ∀ t, Spec.closes t (SSETransportManager.effects after)
         = (Spec.closes t (SSETransportManager.effects this)
            + match SSETransportManager.sessions this !! t with
              | Some session => if Spec.sseStale now session then 1 else 0
              | None => 0
              end)%nat.
Proof.
  intros Hkeyed after. subst after. unfold SSETransportManager.cleanupTick.
  change (execState (bind get ?f) this) with (execState (f this) this). cbv beta.
  destruct (sse_sweep_loop (Spec.sseStale now)
              (map_to_list (SSETransportManager.sessions this)) this) as [Hci Hcl].
  { apply NoDup_fst_map_to_list. }
  { intros k v Hin%elem_of_map_to_list. split; [done|]. by apply Hkeyed. }
  split; [exact Hci|]. intros t. rewrite <- selected_map. apply Hcl.
Qed.

Lemma delete_all_lookup (ids : list string) (m : gmap string SSESession.t) (k : string) :
  foldl (λ acc id, delete id acc) m ids !! k = if decide (k ∈ ids) then None else m !! k.
Proof.
  revert m. induction ids as [|id ids IH]; intros m; cbn [foldl].
  { rewrite decide_False; [done|]. apply not_elem_of_nil. }
  rewrite IH. destruct (decide (k ∈ ids)) as [Hin|Hnot].
  - rewrite decide_True; [done|by right].
  - destruct (decide (k = id)) as [->|Hne].
    + rewrite decide_True; [apply lookup_delete_eq|by left].
    + rewrite decide_False; [by rewrite lookup_delete_ne|].
      intros [?|?]%elem_of_cons; done.
Qed.

Lemma sse_removeAll_sessions (ids : list string) (this : SSETransportManager.t) :
  SSETransportManager.sessions
    (execState (for_of ids SSETransportManager.removeSession) this)
  = foldl (λ acc id, delete id acc) (SSETransportManager.sessions this) ids.
Proof.
  revert this. induction ids as [|id ids IH]; intros this; cbn [for_of foldl]; [done|].
  unfold execState, bind in *.
  pose proof (sse_removeSession_sessions id this) as Hrm. unfold execState in Hrm.
  destruct (SSETransportManager.removeSession id this) as [[] this'].
  simpl in *. by rewrite IH, Hrm.
Qed.

Lemma sse_destroy_sessions (this : SSETransportManager.t) :
  SSETransportManager.sessions (execState SSETransportManager.destroy this) = ∅.
Proof.
  unfold SSETransportManager.destroy, execState, bind, modify, get. cbn [snd fst].
  cbn [SSETransportManager.sessions].
  match goal with |- context [for_of ?l _ ?st] =>
    pose proof (sse_removeAll_sessions l st) as Hall end.
  unfold execState in Hall. rewrite Hall. cbn [SSETransportManager.sessions].
  apply map_eq. intros k. rewrite delete_all_lookup, lookup_empty.
  case_decide as Hk; [done|].
  destruct (SSETransportManager.sessions this !! k) as [s|] eqn:Hs; [|done].
  exfalso. apply Hk. apply list_elem_of_fmap. exists (k, s).
  split; [done|by apply elem_of_map_to_list].
Qed.

Lemma sse_destroy_trace (this : SSETransportManager.t) :
  Streams.keyed this →
  let after := execState SSETransportManager.destroy this in
  SSETransportManager.cleanupInterval after = false
  ∧ ∀ t, Spec.closes t (SSETransportManager.effects after)
         = (Spec.closes t (SSETransportManager.effects this)
            + if bool_decide (is_Some (SSETransportManager.sessions this !! t))
              then 1 else 0)%nat.
Proof.
  intros Hkeyed after. subst after.
  unfold SSETransportManager.destroy, execState, bind, modify, get. cbn [snd fst].
  cbn [SSETransportManager.sessions]. rewrite for_of_keys.
  match goal with |- context [for_of ?l _ ?st] =>
    destruct (sse_sweep_loop (fun _ => true) l st) as [Hci Hcl] end.
  { apply NoDup_fst_map_to_list. }
  { intros k v Hin%elem_of_map_to_list. split; [done|]. by apply Hkeyed. }
  unfold execState in Hci, Hcl. split; [exact Hci|]. intros t. rewrite Hcl.
  cbn [SSETransportManager.effects]. rewrite selected_map.
  by destruct (SSETransportManager.sessions this !! t).
Qed.

Lemma sse_perform_keyed (this : SSETransportManager.t) (op : Streams.Operation) :
  Streams.keyed this → Streams.keyed (Streams.perform this op).
Proof.
  intros Hk key session.
  destruct op as [transport connect tc ta|id res body now|id|id| |id caps now|now| ];
    cbn [Streams.perform].
  - unfold execState, SSETransportManager.createSession, bind, modify.
    cbn [SSESession.id]. destruct connect; cbn [snd fst ret];
      cbn [SSETransportManager.set_sessions SSETransportManager.sessions];
      rewrite lookup_insert; (case_decide as Hkey; [|apply Hk]);
      intros [= <-]; by subst key.
  - destruct (sse_handleMessage_state id res body now this) as [-> _].
    destruct (SSETransportManager.sessions this !! id) as [s|] eqn:Hs; [|apply Hk].
    rewrite lookup_insert. case_decide as Hkey; [|apply Hk].
    intros [= <-]. subst key. by apply Hk in Hs.
  - apply Hk.
  - rewrite sse_removeSession_sessions, lookup_delete.
    case_decide; [done|apply Hk].
  - apply Hk.
  - rewrite sse_updateSessionCapabilities_exec.
    destruct (SSETransportManager.sessions this !! id) as [s|] eqn:Hs; [|apply Hk].
    cbn [SSETransportManager.set_sessions SSETransportManager.sessions].
    rewrite lookup_insert. case_decide as Hkey; [|apply Hk].
    intros [= <-]. subst key. by apply Hk in Hs.
  - rewrite cleanupTick_exec. intros [Hs _]%map_lookup_filter_Some. by apply Hk.
  - by rewrite sse_destroy_sessions, lookup_empty.
Qed.

(** X20. In every state that the transport manager reaches from its
    constructor by calls of its methods and runs of its cleanup callback,
    each stored session sits under the id of its transport, which is also
    the [id] it carries; so [getSession] returns a session of the id asked
    for, and [removeSession] closes the transport of that id once when the
    session exists, and closes no other transport. *)
Theorem sse_store_keyed_invariant (calls : list Streams.Operation) :
  let this := foldl Streams.perform SSETransportManager.new calls in
  Streams.keyed this
  ∧ (∀ (id : string) (session : SSESession.t),
       evalState (SSETransportManager.getSession id) this = Some session →
       SSESession.id session = id ∧ Streams.transportId session = id)
  ∧ (∀ id t : string,
       Spec.closes t
         (SSETransportManager.effects
            (execState (SSETransportManager.removeSession id) this))
       = (Spec.closes t (SSETransportManager.effects this)
          + if bool_decide (is_Some (SSETransportManager.sessions this !! id))
               && String.eqb id t
            then 1 else 0)%nat).
Proof.
  intros this.
  assert (Hreach : ∀ start,
            Streams.keyed start → Streams.keyed (foldl Streams.perform start calls)).
  { induction calls as [|op calls IH]; intros start Hstart; [done|]. cbn [foldl].
    by apply IH, sse_perform_keyed. }
  assert (Hthis : Streams.keyed this).
  { apply Hreach. intros key session. unfold SSETransportManager.new; simpl.
    by rewrite lookup_empty. }
  split_and!; [exact Hthis|exact Hthis|].
  intros id t. unfold execState.
  destruct (SSETransportManager.sessions this !! id) as [s|] eqn:Hs.
  - rewrite (sse_removeSession_present id this s Hs). cbn [snd SSETransportManager.effects].
    rewrite closes_app. destruct (Hthis id s Hs) as [_ Hb].
    unfold Streams.transportId in Hb. rewrite Hb.
    destruct (SSEServerTransport.close (SSESession.transport s));
      destruct (String.eqb id t) eqn:Heq; simpl; rewrite ?Heq; simpl; lia.
  - rewrite (sse_removeSession_absent id this Hs). simpl. lia.
Qed.

(** X21. On a store keyed by transport id, a run of the cleanup callback at
    time [now] closes the transport of each session idle for more than five
    minutes exactly once and drops the session; a session not idle that long
    stays and its transport is not closed; no other transport is closed; and
    the interval stays scheduled as it was. *)
Theorem cleanupTick_closes_exactly_stale (now : Z) (this : SSETransportManager.t) :
  Streams.keyed this →
  let after := execState (SSETransportManager.cleanupTick now) this in
  SSETransportManager.cleanupInterval after = SSETransportManager.cleanupInterval this
  ∧ (∀ (id : string) (session : SSESession.t),
       SSETransportManager.sessions this !! id = Some session →
       now - SSESession.lastActivity session > 5 * 60 * 1000 →
       SSETransportManager.sessions after !! id = None
       ∧ Spec.closes id (SSETransportManager.effects after)
         = S (Spec.closes id (SSETransportManager.effects this)))
  ∧ (∀ (id : string) (session : SSESession.t),
       SSETransportManager.sessions this !! id = Some session →
       now - SSESession.lastActivity session <= 5 * 60 * 1000 →
       SSETransportManager.sessions after !! id = Some session
       ∧ Spec.closes id (SSETransportManager.effects after)
         = Spec.closes id (SSETransportManager.effects this))
  ∧ (∀ id : string,
       SSETransportManager.sessions this !! id = None →
       SSETransportManager.sessions after !! id = None
       ∧ Spec.closes id (SSETransportManager.effects after)
         = Spec.closes id (SSETransportManager.effects this)).
Proof.
  intros Hkeyed after.
  destruct (sse_cleanupTick_trace now this Hkeyed) as [Hci Hcl]. fold after in Hci, Hcl.
  assert (Hsessions : SSETransportManager.sessions after
            = filter (λ kv, Spec.sseStale now kv.2 = false)
                (SSETransportManager.sessions this)) by apply cleanupTick_exec.
  split_and!; [exact Hci|..].
  - intros id session Hs Hidle.
    assert (Hstale : Spec.sseStale now session = true).
    { unfold Spec.sseStale, SSETransportManager.staleTimeout. lia. }
    split.
    + rewrite Hsessions. apply map_lookup_filter_None. right.
      intros s' Hs'. simpl. rewrite Hs in Hs'. injection Hs' as <-. by rewrite Hstale.
    + rewrite Hcl, Hs, Hstale. lia.
  - intros id session Hs Hidle.
    assert (Hstale : Spec.sseStale now session = false).
    { unfold Spec.sseStale, SSETransportManager.staleTimeout. lia. }
    split.
    + rewrite Hsessions. by apply map_lookup_filter_Some.
    + rewrite Hcl, Hs, Hstale. lia.
  - intros id Hs. split.
    + rewrite Hsessions. apply map_lookup_filter_None. by left.
    + rewrite Hcl, Hs. lia.
Qed.

Lemma cleanupTick_closes_exactly_stale_witness :
  Streams.keyed Scenario.streamingManager
  ∧ SSETransportManager.cleanupInterval
      (execState (SSETransportManager.cleanupTick 400000) Scenario.streamingManager)
    = true.
Proof.
  assert (Hkeyed : Streams.keyed Scenario.streamingManager).
  { intros key session. unfold Scenario.streamingManager; simpl.
    rewrite lookup_singleton_Some. by intros [<- <-]. }
  split; [exact Hkeyed|].
  exact (proj1 (cleanupTick_closes_exactly_stale 400000 Scenario.streamingManager Hkeyed)).
Defined.

(** X22. On a store keyed by transport id, [destroy] stops the interval,
    closes the transport of every stored session exactly once and no other,
    and leaves no session; a second [destroy] changes nothing. *)
Theorem destroy_closes_every_session (this : SSETransportManager.t) :
  Streams.keyed this →
  let after := execState SSETransportManager.destroy this in
  SSETransportManager.sessions after = ∅
  ∧ SSETransportManager.cleanupInterval after = false
  ∧ (∀ t : string,
       Spec.closes t (SSETransportManager.effects after)
       = (Spec.closes t (SSETransportManager.effects this)
          + if bool_decide (is_Some (SSETransportManager.sessions this !! t))
            then 1 else 0)%nat)
  ∧ evalState SSETransportManager.getActiveSessions after = []
  ∧ execState SSETransportManager.destroy after = after.
Proof.
  intros Hkeyed after.
  destruct (sse_destroy_trace this Hkeyed) as [Hci Hcl]. fold after in Hci, Hcl.
  pose proof (sse_destroy_sessions this) as Hempty. fold after in Hempty.
  split_and!; [exact Hempty|exact Hci|exact Hcl|..].
  - unfold evalState, SSETransportManager.getActiveSessions, bind, get; simpl.
    by rewrite Hempty, map_to_list_empty.
  - destruct after as [m ci eff]. simpl in Hempty, Hci. subst m ci.
    unfold execState, SSETransportManager.destroy, bind, modify, get; simpl.
    by rewrite map_to_list_empty.
Qed.

Lemma destroy_closes_every_session_witness :
  Streams.keyed Scenario.streamingManager
  ∧ SSETransportManager.sessions
      (execState SSETransportManager.destroy Scenario.streamingManager) = ∅.
Proof.
  assert (Hkeyed : Streams.keyed Scenario.streamingManager).
  { intros key session. unfold Scenario.streamingManager; simpl.
    rewrite lookup_singleton_Some. by intros [<- <-]. }
  split; [exact Hkeyed|].
  exact (proj1 (destroy_closes_every_session Scenario.streamingManager Hkeyed)).
Defined.

(** X23. [updateSessionCapabilities] merges: in the session it finds, a key
    of the argument gets the argument's value and every other key keeps its
    old one; [lastActivity] becomes the clock reading, so the session
    outlives a cleanup run up to five minutes later; id, transport and
    creation time stay.  No transport is closed, other sessions are not
    touched, and for an id without a session nothing changes. *)
Theorem sse_updateSessionCapabilities_merges (this : SSETransportManager.t) (id : string)
    (capabilities : gmap string Js.value) (now : Z) :
  let after :=
    execState (SSETransportManager.updateSessionCapabilities id capabilities now) this in
  (∀ session : SSESession.t,
     SSETransportManager.sessions this !! id = Some session →
     ∃ session' : SSESession.t,
       SSETransportManager.sessions after !! id = Some session'
       ∧ (∀ key : string,
            SSESession.capabilities session' !! key
            = match capabilities !! key with
              | Some v => Some v
              | None => SSESession.capabilities session !! key
              end)
       ∧ SSESession.lastActivity session' = now
       ∧ SSESession.createdAt session' = SSESession.createdAt session
       ∧ SSESession.id session' = SSESession.id session
       ∧ SSESession.transport session' = SSESession.transport session
       ∧ (∀ later : Z, later - now <= 5 * 60 * 1000 →
            SSETransportManager.sessions
              (execState (SSETransportManager.cleanupTick later) after) !! id
            = Some session'))
  ∧ (SSETransportManager.sessions this !! id = None → after = this)
  ∧ (∀ other : string, other ≠ id →
       SSETransportManager.sessions after !! other
       = SSETransportManager.sessions this !! other)
  ∧ SSETransportManager.effects after = SSETransportManager.effects this
  ∧ SSETransportManager.cleanupInterval after = SSETransportManager.cleanupInterval this.
Proof.
  intros after. subst after. rewrite sse_updateSessionCapabilities_exec.
  destruct (SSETransportManager.sessions this !! id) as [s|] eqn:Hs.
  - split_and!; try done.
    + intros session [= <-]. eexists.
      cbn [SSETransportManager.set_sessions SSETransportManager.sessions].
      split; [apply lookup_insert_eq|]. split_and!; try reflexivity.
      * intros key. cbn [SSESession.set_lastActivity SSESession.set_capabilities
                          SSESession.capabilities].
        rewrite lookup_union. destruct (capabilities !! key), (_ !! key); done.
      * intros later Hlater. rewrite cleanupTick_exec.
        apply map_lookup_filter_Some. split; [apply lookup_insert_eq|].
        unfold Spec.sseStale, SSETransportManager.staleTimeout; simpl. lia.
    + intros other Hne. cbn [SSETransportManager.set_sessions SSETransportManager.sessions].
      by rewrite lookup_insert_ne.
  - split_and!; done.
Qed.

Lemma sse_updateSessionCapabilities_merges_witness :
  execState (SSETransportManager.updateSessionCapabilities "nobody"
               {[ "streaming" := Js.Bool true ]} 2000) Scenario.streamingManager
  = Scenario.streamingManager.
Proof.
  refine (proj1 (proj2 (sse_updateSessionCapabilities_merges Scenario.streamingManager
                          "nobody" {[ "streaming" := Js.Bool true ]} 2000)) _).
  vm_compute. reflexivity.
Defined.

(** X24. [createSession] registers the session before it connects: whether
    [server.connect] succeeds or throws, the session is stored under the id
    of its transport with empty capabilities and the two clock readings,
    other sessions are untouched and no transport is closed, not even that
    of a session it replaces.  A failed connect surfaces as the thrown
    error.  On a store keyed by transport id a cleanup run that follows
    closes the transport exactly when it comes more than five minutes after
    [lastActivity]. *)
Theorem sse_createSession_registers_before_connect (this : SSETransportManager.t)
    (transport : SSEServerTransport.t) (connect : option string) (tc ta now : Z) :
  Streams.keyed this →
  let id := SSEServerTransport.sessionId transport in
  let session := SSESession.mk id transport ∅ tc ta in
  let outcome :=
    evalState (SSETransportManager.createSession transport connect tc ta) this in
  let after :=
    execState (SSETransportManager.createSession transport connect tc ta) this in
  outcome = match connect with
            | Some error => Throw (TypeError error)
            | None => Return session
            end
  ∧ evalState (SSETransportManager.getSession id) after = Some session
  ∧ (∀ other : string, other ≠ id →
       SSETransportManager.sessions after !! other
       = SSETransportManager.sessions this !! other)
  ∧ SSETransportManager.effects after = SSETransportManager.effects this
  ∧ Spec.closes id
      (SSETransportManager.effects (execState (SSETransportManager.cleanupTick now) after))
    = (Spec.closes id (SSETransportManager.effects this)
       + if now - ta >? 5 * 60 * 1000 then 1 else 0)%nat.
Proof.
  intros Hkeyed id session outcome after.
  assert (Hafter : after
            = SSETransportManager.set_sessions
                (<[id := session]> (SSETransportManager.sessions this)) this).
  { subst after. unfold execState, SSETransportManager.createSession, bind, modify.
    by destruct connect. }
  assert (Hstored : SSETransportManager.sessions after !! id = Some session).
  { rewrite Hafter. cbn [SSETransportManager.set_sessions SSETransportManager.sessions].
    apply lookup_insert_eq. }
  split_and!.
  - subst outcome. unfold evalState, SSETransportManager.createSession, bind, modify.
    by destruct connect.
  - exact Hstored.
  - intros other Hne. rewrite Hafter.
    cbn [SSETransportManager.set_sessions SSETransportManager.sessions].
    by rewrite lookup_insert_ne.
  - by rewrite Hafter.
  - assert (Hk : Streams.keyed after).
    { apply (sse_perform_keyed this (Streams.CreateSession transport connect tc ta) Hkeyed). }
    destruct (sse_cleanupTick_trace now after Hk) as [_ Hcl].
    rewrite Hcl, Hstored. by rewrite Hafter.
Qed.

Lemma sse_createSession_registers_before_connect_witness :
  Streams.keyed SSETransportManager.new
  ∧ evalState
      (SSETransportManager.createSession Scenario.failingTransport (Some "refused") 1000 1000)
      SSETransportManager.new
    = Throw (TypeError "refused").
Proof.
  assert (Hkeyed : Streams.keyed SSETransportManager.new).
  { intros key session. unfold SSETransportManager.new; simpl. by rewrite lookup_empty. }
  split; [exact Hkeyed|].
  exact (proj1 (sse_createSession_registers_before_connect SSETransportManager.new
                  Scenario.failingTransport (Some "refused") 1000 1000 0 Hkeyed)).
Defined.

(** ** Counting words *)

Lemma rev_app_app (s t u : string) :
  String.rev_app s (t ++ u) = String.rev_app s t ++ u.
Proof.
  revert t. induction s as [|c s IH]; intros t; [done|].
  simpl. by rewrite <- IH, app_cons.
Qed.

Lemma string_rev_app (a b : string) :
  String.rev (a ++ b) = String.rev b ++ String.rev a.
Proof.
  unfold String.rev.
  assert (Hgen : ∀ u, String.rev_app (a ++ b) u = String.rev_app b (String.rev_app a u)).
  { induction a as [|c a IH]; intros u; [done|]. rewrite app_cons. simpl. apply IH. }
  rewrite Hgen. change (String.rev_app a "") with ("" ++ String.rev_app a "") at 1.
  by rewrite rev_app_app.
Qed.

Lemma blank_app (a b : string) : Laws.blank (a ++ b) = Laws.blank a && Laws.blank b.
Proof.
  induction a as [|c a IH]; [done|]. rewrite app_cons. simpl. rewrite IH.
  by rewrite andb_assoc.
Qed.

Lemma blank_rev (w : string) : Laws.blank (String.rev w) = Laws.blank w.
Proof.
  induction w as [|c w IH]; [done|].
  change (String c w) with (String c "" ++ w) at 1.
  rewrite string_rev_app, blank_app, IH. simpl.
  rewrite andb_true_r. apply andb_comm.
Qed.

Lemma trimStart_split (t : string) :
  ∃ w : string, Laws.blank w = true ∧ t = w ++ Js.trimStart t.
Proof.
  induction t as [|c t (w & Hw & Ht)]; [by exists ""|]. simpl.
  destruct (Js.isWhitespace c) eqn:Hc.
  - exists (String c w). split; [by simpl; rewrite Hc|]. by rewrite app_cons, <- Ht.
  - by exists "".
Qed.

Lemma countWords_trimStart (s : string) :
  Laws.countWords false (Js.trimStart s) = Laws.countWords false s.
Proof.
  induction s as [|c s IH]; [done|]. simpl.
  by destruct (Js.isWhitespace c) eqn:Hc; [|simpl; rewrite Hc].
Qed.

Lemma countWords_app_blank (inWord : bool) (s w : string) :
  Laws.blank w = true → Laws.countWords inWord (s ++ w) = Laws.countWords inWord s.
Proof.
  intros Hw. revert inWord. induction s as [|c s IH]; intros inWord.
  - change ("" ++ w) with w. clear -Hw. revert inWord.
    induction w as [|c w IH]; intros inWord; [done|].
    simpl in *. apply andb_true_iff in Hw as [-> Hw]. by apply IH.
  - rewrite app_cons. simpl. destruct (Js.isWhitespace c); by rewrite IH.
Qed.

Lemma countWords_trim (s : string) :
  Laws.countWords false (Js.trim s) = Laws.countWords false s.
Proof.
  unfold Js.trim. rewrite <- (countWords_trimStart s).
  destruct (trimStart_split (String.rev (Js.trimStart s))) as (w & Hw & Hsplit).
  rewrite <- (string_rev_involutive (Js.trimStart s)) at 2.
  rewrite Hsplit at 2. rewrite string_rev_app.
  symmetry. apply countWords_app_blank. by rewrite blank_rev.
Qed.

Lemma splitWhitespace_count (s piece : string) (inSeparator : bool) :
  (inSeparator = true → piece = "") →
  length (filter (fun word => (0 <? String.length word)%nat = true)
            (Js.splitWhitespace s piece inSeparator))
  = (Laws.countWords (0 <? String.length piece)%nat s
     + if (0 <? String.length piece)%nat then 1 else 0)%nat.
Proof.
  revert piece inSeparator. induction s as [|c s IH]; intros piece inSeparator Hinv.
  - simpl. rewrite filter_cons, filter_nil.
    by destruct (0 <? String.length piece)%nat; case_decide.
  - cbn [Js.splitWhitespace Laws.countWords]. destruct (Js.isWhitespace c) eqn:Hc.
    + destruct inSeparator.
      * specialize (Hinv eq_refl). subst piece. by rewrite (IH "" true).
      * rewrite filter_cons.
        destruct (0 <? String.length piece)%nat; case_decide; try done;
          cbn [length]; rewrite (IH "" true) by done;
          change (0 <? String.length "")%nat with false; cbv iota; lia.
    + rewrite IH by done.
      assert (Hgrown : (0 <? String.length (piece ++ String c ""))%nat = true).
      { apply Nat.ltb_lt. rewrite string_app_length. simpl. lia. }
      rewrite Hgrown. destruct (0 <? String.length piece)%nat; lia.
Qed.

(** X25. For a non-empty text the [words] operation reports the number of
    maximal runs of characters that are not whitespace: leading and trailing
    whitespace and the length of the gaps between words do not count, and a
    text of whitespace only has zero words. *)
Theorem stringTool_words_counts_runs (text : string) :
  text ≠ "" →
  Tools.stringTool (Some text) (Some "words")
  = ToolResult.mk true (Some ("Word count: " ++ pretty (Laws.countWords false text))) None
  ∧ (Laws.blank text = true →
     Tools.stringTool (Some text) (Some "words")
     = ToolResult.mk true (Some "Word count: 0") None)
  ∧ (∀ before after : string, Laws.blank before = true → Laws.blank after = true →
       Tools.stringTool (Some (before ++ text ++ after)) (Some "words")
       = Tools.stringTool (Some text) (Some "words")).
Proof.
  intros Hne.
  assert (Hwords : ∀ s : string, s ≠ "" →
            Tools.stringTool (Some s) (Some "words")
            = ToolResult.mk true
                (Some ("Word count: " ++ pretty (Laws.countWords false s))) None).
  { intros s Hs. unfold Tools.stringTool. rewrite stringTool_nonempty by done.
    cbn [Js.strictEq Js.showString default from_option id]. cbv zeta.
    change (Js.strictEq (Some "words") "uppercase") with false.
    change (Js.strictEq (Some "words") "lowercase") with false.
    change (Js.strictEq (Some "words") "reverse") with false.
    change (Js.strictEq (Some "words") "length") with false.
    change (Js.strictEq (Some "words") "words") with true. cbv iota.
    change (Js.showString (Some s)) with s.
    rewrite splitWhitespace_count by done. cbn [String.length Nat.ltb Nat.leb].
    rewrite countWords_trim. by rewrite Nat.add_0_r. }
  assert (Hblank : ∀ (b : bool) (w : string), Laws.blank w = true → Laws.countWords b w = 0%nat).
  { intros b w Hw. revert b. induction w as [|c w IH]; intros b; [done|].
    simpl in *. apply andb_true_iff in Hw as [-> Hw]. by apply IH. }
  assert (Hprefix : ∀ w s : string, Laws.blank w = true →
            Laws.countWords false (w ++ s) = Laws.countWords false s).
  { intros w s Hw. induction w as [|c w IH]; [done|].
    rewrite app_cons. simpl in *. apply andb_true_iff in Hw as [-> Hw]. by apply IH. }
  split_and!; [by apply Hwords|..].
  - intros Hw. rewrite Hwords by done. by rewrite Hblank.
  - intros before after Hb Ha.
    assert (Hwhole : before ++ text ++ after ≠ "").
    { apply nonempty_length. rewrite !string_app_length.
      apply nonempty_length in Hne. lia. }
    rewrite !Hwords by done.
    by rewrite Hprefix, countWords_app_blank.
Qed.

Lemma stringTool_words_counts_runs_witness :
  Tools.stringTool (Some "  two   words ") (Some "words")
  = ToolResult.mk true (Some "Word count: 2") None.
Proof.
  refine (eq_trans (proj1 (stringTool_words_counts_runs "  two   words " _)) _).
  - discriminate.
  - vm_compute. reflexivity.
Defined.

(** ** The transport chosen at start-up *)

Lemma parseArgsFrom_nonempty (args : list string) (transport : string) :
  transport ≠ "" → Startup.parseArgsFrom args transport ≠ "".
Proof.
  revert transport. induction args as [|arg rest IH]; intros transport Hne; [done|].
  cbn [Startup.parseArgsFrom]. apply IH.
  destruct (String.eqb arg "--transport"); [|done].
  destruct (head rest) as [v|]; [|done]. simpl.
  destruct (String.eqb v "") eqn:Hv; [done|]. by apply String.eqb_neq.
Qed.

Lemma parseArgsFrom_no_flag (args : list string) (transport : string) :
  "--transport" ∉ args → Startup.parseArgsFrom args transport = transport.
Proof.
  revert transport. induction args as [|arg rest IH]; intros transport Hnot; [done|].
  apply not_elem_of_cons in Hnot as [Hne Hnot]. cbn [Startup.parseArgsFrom].
  rewrite IH by done.
  assert (Harg : String.eqb arg "--transport" = false)
    by (apply String.eqb_neq; congruence).
  by rewrite Harg.
Qed.

Lemma parseArgsFrom_trailing (before : list string) (value transport : string) :
  value ≠ "" →
  Startup.parseArgsFrom (before ++ ["--transport"; value]) transport = value.
Proof.
  intros Hv. apply String.eqb_neq in Hv.
  revert transport. induction before as [|arg rest IH]; intros transport.
  - cbn [app Startup.parseArgsFrom head]. unfold Js.falsyString, Js.showString.
    rewrite Hv, andb_false_r.
    by change (String.eqb "--transport" "--transport") with true.
  - rewrite <- app_comm_cons. cbn [Startup.parseArgsFrom]. apply IH.
Qed.

(** X26. The transport is chosen by the command line alone: the value of
    [loadConfig]'s [transport.type] is what [parseArgs] returns, whatever the
    environment variable [TRANSPORT_TYPE] holds.  Without a [--transport]
    flag that is [stdio]; a flag with a non-empty value at the end of the
    command line wins over every earlier one, and its value is taken as it
    is, whether or not it names a transport. *)
Theorem transport_chosen_by_command_line (argv : list string) :
  (∀ TRANSPORT_TYPE : option string,
     Startup.loadConfig_transport_type argv TRANSPORT_TYPE = Startup.parseArgs argv)
  ∧ ("--transport" ∉ drop 2 argv → Startup.parseArgs argv = "stdio")
  ∧ (∀ value : string, value ≠ "" → (2 <= length argv)%nat →
       Startup.parseArgs (argv ++ ["--transport"; value]) = value).
Proof.
  split_and!.
  - intros env. unfold Startup.loadConfig_transport_type. cbv zeta.
    assert (Hne : Startup.parseArgs argv ≠ "") by by apply parseArgsFrom_nonempty.
    apply String.eqb_neq in Hne. unfold Js.falsyString at 1. by rewrite Hne.
  - intros Hnot. by apply parseArgsFrom_no_flag.
  - intros value Hv Hlen. unfold Startup.parseArgs.
    rewrite drop_app_le by done. by apply parseArgsFrom_trailing.
Qed.

Lemma transport_chosen_by_command_line_witness :
  Startup.parseArgs ["node"; "index.js"; "--transport"; "http"; "--transport"; "carrier-pigeon"]
  = "carrier-pigeon".
Proof.
  refine (proj2 (proj2 (transport_chosen_by_command_line
                          ["node"; "index.js"; "--transport"; "http"]))
            "carrier-pigeon" _ _).
  - discriminate.
  - simpl. lia.
Defined.
